(** * GoBlockChain: the ledger core of package [block], embedded in Rocq

    The development follows the Go source file of package [block]
    (constants, [Block], [Blockchain], [Transaction]) and the signing side
    in [wallet/wallet.go].  Library calls the program relies on are given
    executable models of their own: [crypto/sha256], [encoding/hex],
    [fmt.Sprintf("%x")], [strconv] for integers and the part of
    [encoding/json] the program reaches.  [ecdsa.Verify] and the parsing
    of floating point literals are the two fields of the class
    [Library]. *)

From Stdlib Require Import ZArith List String Ascii Bool Lia.
From Stdlib Require Import DecimalString DecimalPos DecimalZ.
From Stdlib Require Floats.SpecFloat.
Import ListNotations.

Local Open Scope string_scope.
Local Open Scope Z_scope.
Local Open Scope list_scope.

(** ** Outcome of a Go call

    A call returns, panics (index out of range, nil dereference, ...) or
    is still running when the model's fuel is spent (only the unbounded
    nonce search can be). *)

Inductive outcome (A : Type) : Type :=
| Returns (a : A)
| Panics (msg : string)
| Running.

Arguments Returns {A} a.
Arguments Panics {A} msg.
Arguments Running {A}.

Definition bind {A B : Type} (m : outcome A) (k : A -> outcome B) : outcome B :=
  match m with
  | Returns a => k a
  | Panics msg => Panics msg
  | Running => Running
  end.

Notation "x <- m ;; k" := (bind m (fun x => k))
  (at level 61, m at next level, right associativity).

(** Pointers and slices.  [None] is the nil pointer, respectively the nil
    slice; [len] of a nil slice is 0 and [append] to it allocates. *)

Definition ptr (A : Type) : Type := option A.
Definition slice (A : Type) : Type := option (list A).

Definition elems {A : Type} (s : slice A) : list A :=
  match s with
  | None => []
  | Some l => l
  end.

Definition len {A : Type} (s : slice A) : nat := List.length (elems s).

Definition append {A : Type} (s : slice A) (x : A) : slice A :=
  Some (elems s ++ [x]).

(** ** crypto/sha256 (FIPS 180-4), on bytes held in [Z] *)

Module SHA256.

Definition w32 (x : Z) : Z := Z.land x 0xFFFFFFFF.
Definition add32 (x y : Z) : Z := w32 (x + y).
Definition rotr (n x : Z) : Z := Z.lor (Z.shiftr x n) (w32 (Z.shiftl x (32 - n))).
Definition not32 (x : Z) : Z := Z.lxor x 0xFFFFFFFF.

Definition Ch (x y z : Z) : Z := Z.lxor (Z.land x y) (Z.land (not32 x) z).
Definition Maj (x y z : Z) : Z :=
  Z.lxor (Z.lxor (Z.land x y) (Z.land x z)) (Z.land y z).
Definition bsig0 (x : Z) : Z := Z.lxor (Z.lxor (rotr 2 x) (rotr 13 x)) (rotr 22 x).
Definition bsig1 (x : Z) : Z := Z.lxor (Z.lxor (rotr 6 x) (rotr 11 x)) (rotr 25 x).
Definition ssig0 (x : Z) : Z := Z.lxor (Z.lxor (rotr 7 x) (rotr 18 x)) (Z.shiftr x 3).
Definition ssig1 (x : Z) : Z := Z.lxor (Z.lxor (rotr 17 x) (rotr 19 x)) (Z.shiftr x 10).

(** The round constants are the first 32 bits of the fractional parts
    of the cube roots of the first 64 primes, the initial chaining
    words those of the square roots of the first 8. *)
Definition primes : list Z :=
  [ 2; 3; 5; 7; 11; 13; 17; 19; 23; 29; 31; 37; 41; 43; 47; 53;
    59; 61; 67; 71; 73; 79; 83; 89; 97; 101; 103; 107; 109; 113; 127; 131;
    137; 139; 149; 151; 157; 163; 167; 173; 179; 181; 191; 193; 197; 199; 211; 223;
    227; 229; 233; 239; 241; 251; 257; 263; 269; 271; 277; 281; 283; 293; 307; 311 ].

(** The largest [r] below [2^bits] with [r^3 <= n], bit by bit. *)
Fixpoint cube_root (bits : nat) (r n : Z) : Z :=
  match bits with
  | O => r
  | S b =>
      let r' := Z.lor r (Z.shiftl 1 (Z.of_nat b)) in
      cube_root b (if r' * r' * r' <=? n then r' else r) n
  end.

Definition frac_cube_root (p : Z) : Z := w32 (cube_root 36 0 (p * 2 ^ 96)).
Definition frac_square_root (p : Z) : Z := w32 (Z.sqrt (p * 2 ^ 64)).

Definition K : list Z := Eval vm_compute in map frac_cube_root primes.

(** The eight chaining words. *)
Record state : Type := mkState {
  ha : Z; hb : Z; hc : Z; hd : Z; he : Z; hf : Z; hg : Z; hh : Z
}.

Definition init : state :=
  Eval vm_compute in
  mkState (frac_square_root 2) (frac_square_root 3) (frac_square_root 5)
          (frac_square_root 7) (frac_square_root 11) (frac_square_root 13)
          (frac_square_root 17) (frac_square_root 19).

(** Padding: one 0x80 byte, zeros up to 56 mod 64, then the bit length
    as eight big-endian bytes. *)
Definition be_bytes (n : nat) (x : Z) : list Z :=
  map (fun i => Z.land (Z.shiftr x (8 * Z.of_nat i)) 0xFF) (rev (seq 0 n)).

Definition pad (msg : list Z) : list Z :=
  let l := Z.of_nat (List.length msg) in
  let k := Z.to_nat ((55 - l) mod 64) in
  msg ++ [0x80] ++ repeat 0 k ++ be_bytes 8 (8 * l).

Definition word_of (b0 b1 b2 b3 : Z) : Z :=
  Z.lor (Z.lor (Z.shiftl b0 24) (Z.shiftl b1 16)) (Z.lor (Z.shiftl b2 8) b3).

Fixpoint words (bs : list Z) : list Z :=
  match bs with
  | b0 :: b1 :: b2 :: b3 :: rest => word_of b0 b1 b2 b3 :: words rest
  | _ => []
  end.

(** Message schedule: [win] holds the last sixteen words, oldest first. *)
Fixpoint schedule (n : nat) (win : list Z) : list Z :=
  match n with
  | O => []
  | S n' =>
      let w := add32 (add32 (ssig1 (nth 14 win 0)) (nth 9 win 0))
                     (add32 (ssig0 (nth 1 win 0)) (nth 0 win 0)) in
      w :: schedule n' (tl win ++ [w])
  end.

Definition round (s : state) (kw : Z * Z) : state :=
  let (k, w) := kw in
  let t1 := add32 (add32 (add32 (hh s) (bsig1 (he s))) (Ch (he s) (hf s) (hg s)))
                  (add32 k w) in
  let t2 := add32 (bsig0 (ha s)) (Maj (ha s) (hb s) (hc s)) in
  mkState (add32 t1 t2) (ha s) (hb s) (hc s) (add32 (hd s) t1) (he s) (hf s) (hg s).

Definition compress (s : state) (blk : list Z) : state :=
  let w16 := words blk in
  let w := w16 ++ schedule 48 w16 in
  let r := fold_left round (combine K w) s in
  mkState (add32 (ha s) (ha r)) (add32 (hb s) (hb r))
          (add32 (hc s) (hc r)) (add32 (hd s) (hd r))
          (add32 (he s) (he r)) (add32 (hf s) (hf r))
          (add32 (hg s) (hg r)) (add32 (hh s) (hh r)).

Fixpoint blocks (n : nat) (bs : list Z) (s : state) : state :=
  match n with
  | O => s
  | S n' => blocks n' (skipn 64 bs) (compress s (firstn 64 bs))
  end.

Definition digest_of (s : state) : list Z :=
  flat_map (be_bytes 4) [ha s; hb s; hc s; hd s; he s; hf s; hg s; hh s].

(** [sha256.Sum256]: the 32-byte digest of [msg]. *)
Definition Sum256 (msg : list Z) : list Z :=
  let p := pad msg in
  digest_of (blocks (List.length p / 64) p init).

End SHA256.

(** ** Strings as bytes, [fmt.Sprintf("%x", ...)] and [strconv] *)

Definition bytes_of_string (s : string) : list Z :=
  map (fun c => Z.of_N (N_of_ascii c)) (list_ascii_of_string s).

Definition hex_digit (d : Z) : ascii :=
  if d <? 10 then ascii_of_N (Z.to_N (48 + d)) else ascii_of_N (Z.to_N (87 + d)).

(** [fmt.Sprintf("%x", b)] for a byte array: two lower-case digits a byte. *)
Fixpoint hex (bs : list Z) : string :=
  match bs with
  | [] => EmptyString
  | b :: rest => String (hex_digit (Z.shiftr b 4)) (String (hex_digit (Z.land b 15)) (hex rest))
  end.

(** Decimal text of an integer, as [encoding/json] writes an [int]. *)
Definition itoa (z : Z) : string := NilZero.string_of_int (Z.to_int z).


(** ** Constants of package [block] *)

Definition MiningDifficulty : Z := 3.
Definition MiningSender : string := "THE BLOCKCHAIN".

(** [float32] values are IEEE 754 binary32 numbers; [MiningReward] is 1.0,
    that is 8388608 * 2^-23. *)
Definition float32 : Type := SpecFloat.spec_float.
Definition MiningReward : float32 := SpecFloat.S754_finite false 8388608 (-23).

(** The range of [int] and [int64], and the wrap-around of [nonce += 1]. *)
Definition int64_min : Z := - 2 ^ 63.
Definition int64_max : Z := 2 ^ 63 - 1.
Definition in_int64 (z : Z) : bool := (int64_min <=? z) && (z <=? int64_max).
Definition wrap64 (z : Z) : Z := (z + 2 ^ 63) mod 2 ^ 64 - 2 ^ 63.

(** ** Data model *)

Record Transaction : Type := mkTransaction {
  senderBlockchainAddress : string;
  recipientBlockchainAddress : string;
  value : float32
}.

Record Block : Type := mkBlock {
  timestamp : Z;
  nonce : Z;
  previousHash : list Z;
  transactions : slice (ptr Transaction)
}.

(** [Blockchain] without its two mutexes: a call is modelled running
    alone, from [Lock] to the deferred [Unlock]. *)
Record Blockchain : Type := mkBlockchain {
  transactionPool : slice (ptr Transaction);
  chain : slice (ptr Block);
  blockchainAddress : string;
  port : Z;
  neighbors : slice string
}.

(** [ecdsa.PublicKey] on the curve P-256, and [ecdsa.PrivateKey], which
    embeds it. *)
Module ecdsa.
Record PublicKey : Type := mkPublicKey { X : Z; Y : Z }.
Record PrivateKey : Type := mkPrivateKey { Public : PublicKey; D : Z }.
End ecdsa.

Module utils.
(** Modelled from the spec: [utils.Signature], declared in package
    [utils], of which the sources at hand hold no file.  The spec has
    it as the pair (r, s) of big integers an elliptic-curve signature
    consists of; the code reads them as [s.R] and [s.S]. *)
Record Signature : Type := mkSignature { R : Z; S : Z }.
End utils.

(** The value [NewTransaction] points to; the pointer itself is [Some]. *)
Definition NewTransaction (sender recipient : string) (value : float32) : Transaction :=
  mkTransaction sender recipient value.

(** [NewBlock] reads the clock; [now] is [time.Now().UnixNano()]. *)
Definition NewBlock (now : Z) (nonce : Z) (previousHash : list Z)
    (transactions : slice (ptr Transaction)) : Block :=
  mkBlock now nonce previousHash transactions.

(** [&Block{}]: all fields zero, the transactions slice nil. *)
Definition zero_Block : Block := mkBlock 0 0 (repeat 0 32) None.

(** ** encoding/json, writing side *)

#[local] Unset Elimination Schemes.
Inductive json : Type :=
| JNull
| JBool (b : bool)
| JNum (lit : string)
| JStr (s : string)
| JArr (items : list json)
| JObj (members : list (string * json)).
#[local] Set Elimination Schemes.

Definition dq : string := String (ascii_of_nat 34) EmptyString.

(** A string literal.  The program only ever writes its fixed keys and
    hex digests, none of which holds a character that is escaped. *)
Definition json_quote (s : string) : string := (dq ++ s ++ dq)%string.

(** The compact text [json.Marshal] returns. *)
Fixpoint json_encode (j : json) : string :=
  match j with
  | JNull => "null"
  | JBool true => "true"
  | JBool false => "false"
  | JNum lit => lit
  | JStr s => json_quote s
  | JArr items => ("[" ++ String.concat "," (map json_encode items) ++ "]")%string
  | JObj members =>
      ("{" ++ String.concat ","
         (map (fun kv => (json_quote (fst kv) ++ ":" ++ json_encode (snd kv))%string) members)
       ++ "}")%string
  end.

(** [json.Marshal] of a [*Transaction].  The method meant to customise it
    is declared as [MarshaJSON], which is not the [MarshalJSON] of the
    [json.Marshaler] interface, so the default struct encoding applies:
    it writes exported fields only, and [Transaction] has none.  A nil
    pointer is written as [null]. *)
Definition Transaction_document (t : ptr Transaction) : json :=
  match t with
  | None => JNull
  | Some _ => JObj []
  end.

Definition Transactions_document (ts : slice (ptr Transaction)) : json :=
  match ts with
  | None => JNull
  | Some l => JArr (map Transaction_document l)
  end.

(** [Block.MarshalJSON]. *)
Definition Block_document (b : Block) : json :=
  JObj [ ("timestamp", JNum (itoa (timestamp b)));
         ("nonce", JNum (itoa (nonce b)));
         ("previous-hash", JStr (hex (previousHash b)));
         ("transactions", Transactions_document (transactions b)) ].

Definition MarshalJSON (b : Block) : string := json_encode (Block_document b).

Definition json_Marshal_Transaction (t : ptr Transaction) : string :=
  json_encode (Transaction_document t).

(** [json.Marshal] of a [*Block]: [null] for nil, else [MarshalJSON]. *)
Definition json_Marshal_Block (b : ptr Block) : string :=
  match b with
  | None => "null"
  | Some b => MarshalJSON b
  end.

(** [Block.Hash]. *)
Definition Hash (b : ptr Block) : list Z :=
  SHA256.Sum256 (bytes_of_string (json_Marshal_Block b)).

(** ** Proof of work *)

Fixpoint bytes_eqb (a b : list Z) : bool :=
  match a, b with
  | [], [] => true
  | x :: a', y :: b' => (x =? y) && bytes_eqb a' b'
  | _, _ => false
  end.

Fixpoint strings_Repeat (s : string) (count : nat) : string :=
  match count with
  | O => EmptyString
  | S n => (s ++ strings_Repeat s n)%string
  end.

(** [ValidProof]: [strings.Repeat] panics on a negative count and the
    slice expression [guessHashStr[:difficulty]] panics beyond the 64
    characters of the hash. *)
Definition ValidProof (nonce : Z) (previousHash : list Z)
    (transactions : slice (ptr Transaction)) (difficulty : Z) : outcome bool :=
  if difficulty <? 0 then Panics "strings: negative Repeat count"
  else
    let zeros := strings_Repeat "0" (Z.to_nat difficulty) in
    let guessBlock := mkBlock 0 nonce previousHash transactions in
    let guessHashStr := hex (Hash (Some guessBlock)) in
    if Z.of_nat (String.length guessHashStr) <? difficulty
    then Panics "slice bounds out of range"
    else Returns (String.eqb (substring 0 (Z.to_nat difficulty) guessHashStr) zeros).

(** The search loop of [ProofOfWork]; one unit of fuel per test of the
    loop condition. *)
Fixpoint ProofOfWork_search (fuel : nat) (nonce : Z) (previousHash : list Z)
    (transactions : slice (ptr Transaction)) : outcome Z :=
  match fuel with
  | O => Running
  | S fuel' =>
      ok <- ValidProof nonce previousHash transactions MiningDifficulty ;;
      if ok then Returns nonce
      else ProofOfWork_search fuel' (wrap64 (nonce + 1)) previousHash transactions
  end.

(** ** Chain validation *)

Fixpoint ValidChain_walk (preBlock : ptr Block) (rest : list (ptr Block)) : outcome bool :=
  match rest with
  | [] => Returns true
  | None :: _ => Panics "invalid memory address or nil pointer dereference"
  | Some b :: rest' =>
      if negb (bytes_eqb (previousHash b) (Hash preBlock)) then Returns false
      else
        ok <- ValidProof (nonce b) (previousHash b) (transactions b) MiningDifficulty ;;
        if negb ok then Returns false
        else ValidChain_walk (Some b) rest'
  end.

(** [ValidChain]: [chain[0]] is read before the loop. *)
Definition ValidChain (chain : slice (ptr Block)) : outcome bool :=
  match elems chain with
  | [] => Panics "index out of range [0] with length 0"
  | preBlock :: rest => ValidChain_walk preBlock rest
  end.

(** ** Ledger operations that do not verify signatures *)

(** [CreateBlock].  The loop over the neighbors only sends a DELETE
    request to each and logs the response; it leaves the [Blockchain]
    as it is.  It is not modelled: for a neighbor whose endpoint is no
    URL [http.NewRequest] returns a nil request, on which [client.Do]
    panics, so with neighbors the model says what a call that returns
    leaves behind, not that it returns. *)
Definition CreateBlock (now : Z) (nonce : Z) (previousHash : list Z)
    (bc : Blockchain) : Blockchain * Block :=
  let b := NewBlock now nonce previousHash (transactionPool bc) in
  (mkBlockchain (Some []) (append (chain bc) (Some b))
                (blockchainAddress bc) (port bc) (neighbors bc), b).

(** [NewBlockchain]; [now] is the clock reading taken by [NewBlock]. *)
Definition NewBlockchain (blockchainAddress : string) (port : Z) (now : Z) : Blockchain :=
  let bc := mkBlockchain None None blockchainAddress 0 None in
  let bc := fst (CreateBlock now 0 (Hash (Some zero_Block)) bc) in
  mkBlockchain (transactionPool bc) (chain bc) (blockchainAddress) port (neighbors bc).

Definition ClearTransactionPool (bc : Blockchain) : Blockchain :=
  mkBlockchain (match transactionPool bc with None => None | Some _ => Some [] end)
               (chain bc) (blockchainAddress bc) (port bc) (neighbors bc).

(** [LastBlock]: [bc.chain[len(bc.chain)-1]]. *)
Definition LastBlock (bc : Blockchain) : outcome (ptr Block) :=
  match rev (elems (chain bc)) with
  | [] => Panics "index out of range [-1]"
  | b :: _ => Returns b
  end.

Fixpoint copy_transactions (pool : list (ptr Transaction)) : outcome (list (ptr Transaction)) :=
  match pool with
  | [] => Returns []
  | None :: _ => Panics "invalid memory address or nil pointer dereference"
  | Some t :: rest =>
      let t' := NewTransaction (senderBlockchainAddress t)
                               (recipientBlockchainAddress t) (value t) in
      rest' <- copy_transactions rest ;;
      Returns (Some t' :: rest')
  end.

(** [CopyTransactionPool]: a fresh, non-nil slice of fresh transactions. *)
Definition CopyTransactionPool (bc : Blockchain) : outcome (slice (ptr Transaction)) :=
  l <- copy_transactions (elems (transactionPool bc)) ;;
  Returns (Some l).

Definition ProofOfWork (fuel : nat) (bc : Blockchain) : outcome Z :=
  transactions <- CopyTransactionPool bc ;;
  last <- LastBlock bc ;;
  ProofOfWork_search fuel 0 (Hash last) transactions.

(** Assignments to [bc.transactionPool] and to [bc.chain]. *)
Definition with_pool (bc : Blockchain) (pool : slice (ptr Transaction)) : Blockchain :=
  mkBlockchain pool (chain bc) (blockchainAddress bc) (port bc) (neighbors bc).

Definition with_chain (bc : Blockchain) (c : slice (ptr Block)) : Blockchain :=
  mkBlockchain (transactionPool bc) c (blockchainAddress bc) (port bc) (neighbors bc).

(** The digest [VerityTransactionSignature] hands to [ecdsa.Verify]:
    [m, _ := json.Marshal(t)] and [h := sha256.Sum256([]byte(m))]. *)
Definition verification_digest (t : ptr Transaction) : list Z :=
  let m := json_Marshal_Transaction t in
  SHA256.Sum256 (bytes_of_string m).

(** ** The signing side, package [wallet] *)

Module wallet.

Record Transaction : Type := mkTransaction {
  senderPrivateKey : ptr ecdsa.PrivateKey;
  senderPublicKey : ptr ecdsa.PublicKey;
  senderBlockchainAddress : string;
  recipientBlockchainAddress : string;
  value : float32
}.

(** [json.Marshal] of a [*wallet.Transaction]: here too the method is
    declared as [MarshaJSON] and every field is unexported. *)
Definition Transaction_document (t : ptr Transaction) : json :=
  match t with
  | None => JNull
  | Some _ => JObj []
  end.

(** The digest [GenerateSignature] hands to [ecdsa.Sign]. *)
Definition signing_digest (t : ptr Transaction) : list Z :=
  let m := json_encode (Transaction_document t) in
  SHA256.Sum256 (bytes_of_string m).

End wallet.

(** ** Library functions left abstract

    [ecdsa_Verify pk h r s] is [ecdsa.Verify] on a non-nil key;
    [ParseFloat32 lit] is [strconv.ParseFloat(lit, 32)], [None] when the
    literal is out of range; [FormatFloat32 f] is the text
    [encoding/json] writes for the [float32] value [f].

    [hex_spare s] is what lies behind the slice [hex.DecodeString(s)]
    returns: the bytes of its array from the slice's length up to its
    capacity.  The documentation of [encoding/hex] says nothing about
    them, and the releases of Go differ: from Go 1.23 on the array is
    a new one of [len(s)/2] zero bytes, before that it is the copy
    [[]byte(s)] of the text, decoded in place.  The repository names
    no release, so the bytes are left open. *)
Class Library : Type := {
  ecdsa_Verify : ecdsa.PublicKey -> list Z -> Z -> Z -> bool;
  ParseFloat32 : string -> option float32;
  FormatFloat32 : float32 -> string;
  hex_spare : string -> list Z
}.

Section Ledger.

Context {lib : Library}.

(** [Transaction.MarshaJSON]: the document of the three fields.  Nothing
    calls it: [encoding/json] looks for [MarshalJSON]. *)
Definition MarshaJSON (t : Transaction) : json :=
  JObj [ ("sender_blockchain_address", JStr (senderBlockchainAddress t));
         ("recipient_blockchain_address", JStr (recipientBlockchainAddress t));
         ("value", JNum (FormatFloat32 (value t))) ].

(** [VerityTransactionSignature]: [s.R] dereferences [s], and
    [ecdsa.Verify] dereferences the key. *)
Definition VerityTransactionSignature (senderPublicKey : ptr ecdsa.PublicKey)
    (s : ptr utils.Signature) (t : ptr Transaction) : outcome bool :=
  let h := verification_digest t in
  match s with
  | None => Panics "invalid memory address or nil pointer dereference"
  | Some sg =>
      match senderPublicKey with
      | None => Panics "invalid memory address or nil pointer dereference"
      | Some pk => Returns (ecdsa_Verify pk h (utils.R sg) (utils.S sg))
      end
  end.

(** [AddTransaction]. *)
Definition AddTransaction (sender recipient : string) (value : float32)
    (senderPublicKey : ptr ecdsa.PublicKey) (s : ptr utils.Signature)
    (bc : Blockchain) : outcome (Blockchain * bool) :=
  let t := NewTransaction sender recipient value in
  if String.eqb sender MiningSender then
    Returns (with_pool bc (append (transactionPool bc) (Some t)), true)
  else
    ok <- VerityTransactionSignature senderPublicKey s (Some t) ;;
    if ok then Returns (with_pool bc (append (transactionPool bc) (Some t)), true)
    else Returns (bc, false).

(** [Mining]; [fuel] bounds the nonce search and [now] is the clock
    reading [CreateBlock] takes. *)
Definition Mining (fuel : nat) (now : Z) (bc : Blockchain) : outcome (Blockchain * bool) :=
  if (len (transactionPool bc) =? 0)%nat then Returns (bc, false)
  else
    r <- AddTransaction MiningSender (blockchainAddress bc) MiningReward None None bc ;;
    let bc := fst r in
    nonce <- ProofOfWork fuel bc ;;
    last <- LastBlock bc ;;
    let previousHash := Hash last in
    Returns (fst (CreateBlock now nonce previousHash bc), true).

End Ledger.

(** ** Conflict resolution *)

(** What one pass of the loop of [ResolveConflicts] obtains from a
    neighbor: [http.Get] either fails, returning a nil response, or
    answers with a status code; [decoded] is [bcResp.chain] once
    [decoder.Decode] is done (its error is ignored), or the panic
    raised while decoding. *)
Inductive fetched : Type :=
| Unreachable
| Replied (StatusCode : Z) (decoded : outcome (slice (ptr Block))).

(** The network as [ResolveConflicts] sees it: endpoint to result. *)
Definition network : Type := string -> fetched.

Definition chain_endpoint (n : string) : string := ("https://" ++ n ++ "/chain")%string.

(** The loop body, on the pair [(maxLength, longestChain)]. *)
Definition ResolveConflicts_visit (state : nat * slice (ptr Block))
    (got : fetched) : outcome (nat * slice (ptr Block)) :=
  let (maxLength, longestChain) := state in
  match got with
  | Unreachable => Panics "invalid memory address or nil pointer dereference"
  | Replied StatusCode decoded =>
      if StatusCode =? 200 then
        chain <- decoded ;;
        if (maxLength <? len chain)%nat then
          ok <- ValidChain chain ;;
          if ok then Returns (len chain, chain) else Returns (maxLength, longestChain)
        else Returns (maxLength, longestChain)
      else Returns (maxLength, longestChain)
  end.

Fixpoint ResolveConflicts_scan (net : network)
    (ns : list string) (state : nat * slice (ptr Block)) : outcome (nat * slice (ptr Block)) :=
  match ns with
  | [] => Returns state
  | n :: ns' =>
      state' <- ResolveConflicts_visit state (net (chain_endpoint n)) ;;
      ResolveConflicts_scan net ns' state'
  end.

(** [ResolveConflicts]. *)
Definition ResolveConflicts (net : network) (bc : Blockchain) : outcome (Blockchain * bool) :=
  let longestChain : slice (ptr Block) := None in
  let maxLength := len (chain bc) in
  state <- ResolveConflicts_scan net (elems (neighbors bc)) (maxLength, longestChain) ;;
  match snd state with
  | Some longestChain => Returns (with_chain bc (Some longestChain), true)
  | None => Returns (bc, false)
  end.

(** ** encoding/hex *)

Definition fromHexChar (c : ascii) : option Z :=
  let n := Z.of_N (N_of_ascii c) in
  if (48 <=? n) && (n <=? 57) then Some (n - 48)
  else if (97 <=? n) && (n <=? 102) then Some (n - 87)
  else if (65 <=? n) && (n <=? 70) then Some (n - 55)
  else None.

(** [hex.Decode]: the bytes decoded before the first invalid pair. *)
Fixpoint hex_Decode (src : string) : list Z :=
  match src with
  | String p (String q rest) =>
      match fromHexChar p, fromHexChar q with
      | Some a, Some b => (16 * a + b) :: hex_Decode rest
      | _, _ => []
      end
  | _ => []
  end.

(** A byte slice with its backing array, of which the first [used]
    elements are the slice; the rest is spare capacity. *)
Record byte_slice : Type := mkByteSlice { backing : list Z; used : nat }.

Definition cap (s : byte_slice) : nat := List.length (backing s).

(** [hex.DecodeString]: the bytes decoded before the first invalid
    pair, as a slice of an array that goes on with [hex_spare s].  The
    caller drops the error. *)
Definition hex_DecodeString {lib : Library} (s : string) : byte_slice :=
  let d := hex_Decode s in
  mkByteSlice (d ++ hex_spare s) (List.length d).

(** The spare bytes of Go 1.23 and later, where [DecodeString] decodes
    into [make([]byte, DecodedLen(len(s)))]: zeros up to [len(s)/2]. *)
Definition make_spare (s : string) : list Z :=
  repeat 0 (String.length s / 2 - List.length (hex_Decode s)).



(** The slice expression [ph[:high]], whose bound is the capacity. *)
Definition reslice (ph : byte_slice) (high : nat) : outcome (list Z) :=
  if (cap ph <? high)%nat then Panics "slice bounds out of range"
  else Returns (firstn high (backing ph)).

(** ** encoding/json, reading side

    [json.Unmarshal] is modelled on the parsed document.  An object key
    selects the struct field whose name it equals up to case folding,
    under which the long s and the Kelvin sign count as [s] and [k]. *)

Definition upper (c : ascii) : ascii :=
  let n := N_of_ascii c in
  if ((97 <=? n) && (n <=? 122))%N then ascii_of_N (n - 32) else c.

Definition is_byte (c : ascii) (n : N) : bool := (N_of_ascii c =? n)%N.

Fixpoint foldName (s : string) : string :=
  match s with
  | EmptyString => EmptyString
  | String c rest =>
      match rest with
      | String c1 rest1 =>
          if is_byte c 0xC5 && is_byte c1 0xBF then String "S" (foldName rest1)
          else
            match rest1 with
            | String c2 rest2 =>
                if is_byte c 0xE2 && is_byte c1 0x84 && is_byte c2 0xAA
                then String "K" (foldName rest2)
                else String (upper c) (foldName rest)
            | EmptyString => String (upper c) (foldName rest)
            end
      | EmptyString => String (upper c) EmptyString
      end
  end.

Definition names (key field : string) : bool := String.eqb (foldName key) (foldName field).

Definition ParseInt (lit : string) : option Z :=
  match option_map Z.of_int (NilZero.int_of_string lit) with
  | Some z => if in_int64 z then Some z else None
  | None => None
  end.

Inductive error : Type := DecodeError.

Section Decoding.

Context {lib : Library}.

(** The struct [Transaction.UnmarshalJSON] hands to [json.Unmarshal]:
    three pointers into the receiver.  A JSON null sets such a pointer
    to nil, after which the receiver's field is out of reach; [tx_err]
    records that some member did not fit its field. *)
Record Transaction_target : Type := mkTransactionTarget {
  tx_receiver : Transaction;
  tx_Sender : bool;
  tx_Recipient : bool;
  tx_Value : bool;
  tx_err : bool
}.

Definition Transaction_member (st : Transaction_target) (kv : string * json)
    : Transaction_target :=
  let (key, v) := kv in
  let t := tx_receiver st in
  if names key "sender_blockchain_address" then
    match v with
    | JNull => mkTransactionTarget t false (tx_Recipient st) (tx_Value st) (tx_err st)
    | JStr s =>
        if tx_Sender st
        then mkTransactionTarget
               (mkTransaction s (recipientBlockchainAddress t) (value t))
               true (tx_Recipient st) (tx_Value st) (tx_err st)
        else st
    | _ => mkTransactionTarget t (tx_Sender st) (tx_Recipient st) (tx_Value st) true
    end
  else if names key "recipient_blockchain_address" then
    match v with
    | JNull => mkTransactionTarget t (tx_Sender st) false (tx_Value st) (tx_err st)
    | JStr s =>
        if tx_Recipient st
        then mkTransactionTarget
               (mkTransaction (senderBlockchainAddress t) s (value t))
               (tx_Sender st) true (tx_Value st) (tx_err st)
        else st
    | _ => mkTransactionTarget t (tx_Sender st) (tx_Recipient st) (tx_Value st) true
    end
  else if names key "value" then
    match v with
    | JNull => mkTransactionTarget t (tx_Sender st) (tx_Recipient st) false (tx_err st)
    | JNum lit =>
        match ParseFloat32 lit with
        | Some f =>
            if tx_Value st
            then mkTransactionTarget
                   (mkTransaction (senderBlockchainAddress t) (recipientBlockchainAddress t) f)
                   (tx_Sender st) (tx_Recipient st) true (tx_err st)
            else st
        | None => mkTransactionTarget t (tx_Sender st) (tx_Recipient st) (tx_Value st) true
        end
    | _ => mkTransactionTarget t (tx_Sender st) (tx_Recipient st) (tx_Value st) true
    end
  else st.

(** [Transaction.UnmarshalJSON] on the receiver [t]. *)
Definition Transaction_UnmarshalJSON (t : Transaction) (doc : json) : Transaction + error :=
  match doc with
  | JNull => inl t
  | JObj members =>
      let st := fold_left Transaction_member members
                  (mkTransactionTarget t true true true false) in
      if tx_err st then inr DecodeError else inl (tx_receiver st)
  | _ => inr DecodeError
  end.

Definition zero_Transaction : Transaction :=
  mkTransaction EmptyString EmptyString (SpecFloat.S754_zero false).

(** A JSON array decoded into a fresh [[]*Transaction]: null gives a
    nil pointer, any other element a new [Transaction] filled by its
    [UnmarshalJSON]; [None] when an element is refused. *)
Fixpoint decode_transactions (items : list json) : option (list (ptr Transaction)) :=
  match items with
  | [] => Some []
  | JNull :: rest => option_map (cons None) (decode_transactions rest)
  | doc :: rest =>
      match Transaction_UnmarshalJSON zero_Transaction doc with
      | inl t => option_map (cons (Some t)) (decode_transactions rest)
      | inr _ => None
      end
  end.

(** The struct [Block.UnmarshalJSON] hands to [json.Unmarshal]:
    pointers to the receiver's [timestamp], [nonce] and [transactions],
    and a pointer to the local string [previousHash], whose state is
    [None] for nil and [Some s] when it points to [s]. *)
Record Block_target : Type := mkBlockTarget {
  bl_receiver : Block;
  bl_Timestamp : bool;
  bl_Nonce : bool;
  bl_PreviousHash : option string;
  bl_Transaction : bool;
  bl_err : bool
}.

Definition Block_member (st : Block_target) (kv : string * json) : Block_target :=
  let (key, v) := kv in
  let b := bl_receiver st in
  let failed := mkBlockTarget b (bl_Timestamp st) (bl_Nonce st) (bl_PreviousHash st)
                              (bl_Transaction st) true in
  if names key "timestamp" then
    match v with
    | JNull => mkBlockTarget b false (bl_Nonce st) (bl_PreviousHash st)
                             (bl_Transaction st) (bl_err st)
    | JNum lit =>
        match ParseInt lit with
        | Some n =>
            if bl_Timestamp st
            then mkBlockTarget (mkBlock n (nonce b) (previousHash b) (transactions b))
                               true (bl_Nonce st) (bl_PreviousHash st)
                               (bl_Transaction st) (bl_err st)
            else st
        | None => failed
        end
    | _ => failed
    end
  else if names key "nonce" then
    match v with
    | JNull => mkBlockTarget b (bl_Timestamp st) false (bl_PreviousHash st)
                             (bl_Transaction st) (bl_err st)
    | JNum lit =>
        match ParseInt lit with
        | Some n =>
            if bl_Nonce st
            then mkBlockTarget (mkBlock (timestamp b) n (previousHash b) (transactions b))
                               (bl_Timestamp st) true (bl_PreviousHash st)
                               (bl_Transaction st) (bl_err st)
            else st
        | None => failed
        end
    | _ => failed
    end
  else if names key "previous_hash" then
    match v with
    | JNull => mkBlockTarget b (bl_Timestamp st) (bl_Nonce st) None
                             (bl_Transaction st) (bl_err st)
    | JStr s => mkBlockTarget b (bl_Timestamp st) (bl_Nonce st) (Some s)
                              (bl_Transaction st) (bl_err st)
    | _ => failed
    end
  else if names key "transactions" then
    match v with
    | JNull => mkBlockTarget b (bl_Timestamp st) (bl_Nonce st) (bl_PreviousHash st)
                             false (bl_err st)
    | JArr items =>
        match decode_transactions items with
        | Some l =>
            if bl_Transaction st
            then mkBlockTarget (mkBlock (timestamp b) (nonce b) (previousHash b) (Some l))
                               (bl_Timestamp st) (bl_Nonce st) (bl_PreviousHash st)
                               true (bl_err st)
            else st
        | None => failed
        end
    | _ => failed
    end
  else st.

(** The struct as [Block.UnmarshalJSON] sets it up. *)
Definition Block_target_init : Block_target :=
  mkBlockTarget zero_Block true true (Some EmptyString) true false.




(** [Block.UnmarshalJSON] on a receiver as the decoder supplies it, a
    new [Block].  [inl b] is the receiver after [return nil], [inr] a
    returned error.  A top-level null makes [v] itself nil. *)
Definition Block_UnmarshalJSON (doc : json) : outcome (Block + error) :=
  match doc with
  | JNull => Panics "invalid memory address or nil pointer dereference"
  | JObj members =>
      let st := fold_left Block_member members Block_target_init in
      if bl_err st then Returns (inr DecodeError)
      else
        match bl_PreviousHash st with
        | None => Panics "invalid memory address or nil pointer dereference"
        | Some s =>
            let ph := hex_DecodeString s in
            bytes <- reslice ph 32 ;;
            let b := bl_receiver st in
            Returns (inl (mkBlock (timestamp b) (nonce b) bytes (transactions b)))
        end
  | _ => Returns (inr DecodeError)
  end.

End Decoding.

(** ** Reachable ledgers *)

Section Reachability.

Context {lib : Library}.

(** One completed call on a [Blockchain]. *)
Inductive step (bc : Blockchain) : Blockchain -> Prop :=
| step_AddTransaction sender recipient value senderPublicKey s bc' ok :
    AddTransaction sender recipient value senderPublicKey s bc = Returns (bc', ok) ->
    step bc bc'
| step_ClearTransactionPool :
    step bc (ClearTransactionPool bc)
| step_Mining fuel now bc' ok :
    Mining fuel now bc = Returns (bc', ok) ->
    step bc bc'
| step_ResolveConflicts net bc' ok :
    ResolveConflicts net bc = Returns (bc', ok) ->
    step bc bc'
| step_SetNeighbors ns :
    step bc (mkBlockchain (transactionPool bc) (chain bc) (blockchainAddress bc)
                          (port bc) ns).

(** Ledgers a node can hold: the one [NewBlockchain] builds, and any
    ledger a completed call leaves behind. *)
Inductive reachable : Blockchain -> Prop :=
| reachable_new blockchainAddress port now :
    reachable (NewBlockchain blockchainAddress port now)
| reachable_step bc bc' :
    reachable bc -> step bc bc' -> reachable bc'.

End Reachability.

(** ** Properties of chains *)

(** The first [n] characters of [s] are all ['0']. *)
Definition leading_zeros (n : nat) (s : string) : Prop :=
  exists rest, s = (strings_Repeat "0" n ++ rest)%string.

(** The linkage every later block must have to its predecessor. *)
Definition linked_to (pre : ptr Block) (b : Block) : Prop :=
  previousHash b = Hash pre.

(** Proof of work on the block's identity hash, timestamp included. *)
Definition identity_hash_mined (b : Block) : Prop :=
  leading_zeros (Z.to_nat MiningDifficulty) (hex (Hash (Some b))).

(** Proof of work as [ValidProof] tests it: on the candidate block, in
    which the timestamp is 0. *)
Definition candidate_hash_mined (b : Block) : Prop :=
  leading_zeros (Z.to_nat MiningDifficulty)
    (hex (Hash (Some (mkBlock 0 (nonce b) (previousHash b) (transactions b))))).

(** [P pre b] holds of every adjacent pair of the chain, and no block
    after the first is nil. *)
Definition every_link (P : ptr Block -> Block -> Prop) (c : list (ptr Block)) : Prop :=
  forall i pre cur,
    nth_error c i = Some pre ->
    nth_error c (S i) = Some cur ->
    exists b, cur = Some b /\ P pre b.

(** The same, by recursion along the chain as [ValidChain] walks it. *)
Fixpoint links (P : ptr Block -> Block -> Prop) (pre : ptr Block)
    (rest : list (ptr Block)) : Prop :=
  match rest with
  | [] => True
  | None :: _ => False
  | Some b :: rest' => P pre b /\ links P (Some b) rest'
  end.

(** What [ValidChain] checks of a block against its predecessor. *)
Definition valid_link (pre : ptr Block) (b : Block) : Prop :=
  linked_to pre b /\ candidate_hash_mined b.

(** What the data model asks of a block against its predecessor. *)
Definition claimed_link (pre : ptr Block) (b : Block) : Prop :=
  linked_to pre b /\ identity_hash_mined b.

Definition well_linked (P : ptr Block -> Block -> Prop) (c : list (ptr Block)) : Prop :=
  match c with
  | [] => True
  | pre :: rest => links P pre rest
  end.

(** ** Candidates of conflict resolution *)

(** The neighbor [n] answers with status [s] and the chain [c]. *)
Definition reports (net : network) (n : string) (s : Z) (c : slice (ptr Block)) : Prop :=
  net (chain_endpoint n) = Replied s (Returns c).

(** No block after the first is nil. *)
Definition whole (c : slice (ptr Block)) : Prop :=
  exists (pre : ptr Block) (rest : list Block), elems c = pre :: map Some rest.

(** Every neighbor answers, with an empty chain or a whole one. *)
Definition all_answer (net : network) (ns : list string) : Prop :=
  forall n, In n ns -> exists s c, reports net n s c /\ (len c = 0%nat \/ whole c).

(** [c] is a candidate for replacing the local chain of [bc]. *)
Definition qualifies (bc : Blockchain) (c : slice (ptr Block)) : Prop :=
  (len (chain bc) < len c)%nat /\ ValidChain c = Returns true.

(** ** Sample data

    A node started at [t0] receives one transaction, mines at [t1],
    and two more blocks follow at [t2] and [t3]. *)

(** A library instance for closed examples: the signature [(r, s)] is
    accepted when [r] repeats the key's [X]; the examples neither read
    nor write a float; hexadecimal text is decoded as in Go 1.23. *)
Definition sample_lib : Library :=
  {| ecdsa_Verify := fun pk _ r _ => r =? ecdsa.X pk;
     ParseFloat32 := fun _ => None;
     FormatFloat32 := fun _ => "1";
     hex_spare := make_spare |}.



Definition t0 : Z := 1700000000000000828.
Definition t1 : Z := 1700000020000004864.
Definition t2 : Z := 1700000040000009831.
Definition t3 : Z := 1700000060000013671.
Definition t4 : Z := 1700000080000000000.

Definition miner : string := "1MinerAddr".

Definition sample_tx : Transaction := NewTransaction MiningSender "alice" MiningReward.
Definition sample_reward : Transaction := NewTransaction MiningSender miner MiningReward.
Definition sample_txs : slice (ptr Transaction) := Some [Some sample_tx; Some sample_reward].

Definition sample_new : Blockchain := NewBlockchain miner 5000 t0.

Definition sample_pending : Blockchain :=
  with_pool sample_new (Some [Some sample_tx]).

Definition hash_zero : list Z := Eval vm_compute in Hash (Some zero_Block).
Definition block0 : Block := mkBlock t0 0 hash_zero None.
Definition hash0 : list Z := Eval vm_compute in Hash (Some block0).
Definition block1 : Block := mkBlock t1 1 hash0 sample_txs.
Definition hash1 : list Z := Eval vm_compute in Hash (Some block1).
Definition block2 : Block := mkBlock t2 0 hash1 sample_txs.
Definition hash2 : list Z := Eval vm_compute in Hash (Some block2).
Definition block3 : Block := mkBlock t3 0 hash2 sample_txs.
Definition hash3 : list Z := Eval vm_compute in Hash (Some block3).
(** A fifth block whose nonce does not solve the puzzle. *)
Definition block4_unmined : Block := mkBlock t4 0 hash3 sample_txs.

Definition sample_rewarded : Blockchain := with_pool sample_new sample_txs.

Definition sample_mined : Blockchain :=
  mkBlockchain (Some []) (Some [Some block0; Some block1]) miner 5000 None.

Definition chain3 : slice (ptr Block) := Some [Some block0; Some block1; Some block2].
Definition chain4 : slice (ptr Block) :=
  Some [Some block0; Some block1; Some block2; Some block3].
Definition chain5_invalid : slice (ptr Block) :=
  Some [Some block0; Some block1; Some block2; Some block3; Some block4_unmined].

Definition sample_local : Blockchain :=
  mkBlockchain (Some []) chain3 miner 5000 (Some ["127.0.0.1:5001"; "127.0.0.1:5002"]).

(** Port 5001 offers the invalid chain of five blocks, port 5002 the
    valid chain of four. *)
Definition sample_net : network :=
  fun endpoint =>
    if String.eqb endpoint "https://127.0.0.1:5001/chain"
    then Replied 200 (Returns chain5_invalid)
    else if String.eqb endpoint "https://127.0.0.1:5002/chain"
    then Replied 200 (Returns chain4)
    else Unreachable.

(** Port 5001 offers the valid chain of four, port 5002 is down. *)
Definition sample_net_down : network :=
  fun endpoint =>
    if String.eqb endpoint "https://127.0.0.1:5001/chain"
    then Replied 200 (Returns chain4)
    else Unreachable.

(** Port 5001 cannot be reached; port 5002 offers the valid chain of
    four. *)
Definition sample_net_first_down : network :=
  fun endpoint =>
    if String.eqb endpoint "https://127.0.0.1:5002/chain"
    then Replied 200 (Returns chain4)
    else Unreachable.

(** A chain of five whose last element is nil. *)
Definition chain5_nil : slice (ptr Block) :=
  Some [Some block0; Some block1; Some block2; Some block3; None].

(** Port 5001 offers the valid chain of four, port 5002 the chain that
    ends in nil. *)
Definition sample_net_nil : network :=
  fun endpoint =>
    if String.eqb endpoint "https://127.0.0.1:5001/chain"
    then Replied 200 (Returns chain4)
    else Replied 200 (Returns chain5_nil).

Definition alice_key : ecdsa.PublicKey := ecdsa.mkPublicKey 11 22.



(** ** Shape of a ledger *)

(** The last element of the chain is a block. *)
Definition ends_in_block (bc : Blockchain) : Prop :=
  exists front b, elems (chain bc) = front ++ [Some b].


(** ** Amounts *)

(** Addition and subtraction of [float32] values: IEEE 754 binary32,
    rounding to nearest even. *)
Definition float32_add : float32 -> float32 -> float32 := SpecFloat.SFadd 24 128.
Definition float32_sub : float32 -> float32 -> float32 := SpecFloat.SFsub 24 128.

(** The inner loop of [CalculateTotalAmount], over one block's
    transactions; [t.value] dereferences [t]. *)
Fixpoint amount_transactions (blockchainAddress : string)
    (ts : list (ptr Transaction)) (totalAmount : float32) : outcome float32 :=
  match ts with
  | [] => Returns totalAmount
  | None :: _ => Panics "invalid memory address or nil pointer dereference"
  | Some t :: rest =>
      let value := value t in
      let totalAmount :=
        if String.eqb blockchainAddress (recipientBlockchainAddress t)
        then float32_add totalAmount value else totalAmount in
      let totalAmount :=
        if String.eqb blockchainAddress (senderBlockchainAddress t)
        then float32_sub totalAmount value else totalAmount in
      amount_transactions blockchainAddress rest totalAmount
  end.

(** The outer loop, over the blocks; [b.transactions] dereferences [b]. *)
Fixpoint amount_blocks (blockchainAddress : string)
    (bs : list (ptr Block)) (totalAmount : float32) : outcome float32 :=
  match bs with
  | [] => Returns totalAmount
  | None :: _ => Panics "invalid memory address or nil pointer dereference"
  | Some b :: rest =>
      totalAmount <- amount_transactions blockchainAddress
                       (elems (transactions b)) totalAmount ;;
      amount_blocks blockchainAddress rest totalAmount
  end.

(** [CalculateTotalAmount]. *)
Definition CalculateTotalAmount (blockchainAddress : string) (bc : Blockchain)
    : outcome float32 :=
  amount_blocks blockchainAddress (elems (chain bc)) (SpecFloat.S754_zero false).

(** The address is sender or recipient of the transaction. *)
Definition involves (blockchainAddress : string) (t : Transaction) : Prop :=
  blockchainAddress = senderBlockchainAddress t
  \/ blockchainAddress = recipientBlockchainAddress t.

(** No block of the chain and no transaction in a block is nil. *)
Definition no_nil_pointer (c : list (ptr Block)) : Prop :=
  Forall (fun p => exists b, p = Some b
                             /\ Forall (fun t => t <> None) (elems (transactions b))) c.

(** The address occurs in a transaction of a block of the chain. *)
Definition occurs_in (blockchainAddress : string) (c : list (ptr Block)) : Prop :=
  exists b t, In (Some b) c /\ In (Some t) (elems (transactions b))
              /\ involves blockchainAddress t.

(** ** Transaction requests *)

Record TransactionRequest : Type := mkTransactionRequest {
  SenderBlockchainAddress : ptr string;
  RecipientBlockchainAddress : ptr string;
  SenderPublicKey : ptr string;
  Value : ptr float32;
  Signature : ptr string
}.

Definition is_nil {A : Type} (p : ptr A) : bool :=
  match p with
  | None => true
  | Some _ => false
  end.

(** [TransactionRequest.Validate]; [tr.Value] dereferences [tr]. *)
Definition Validate (tr : ptr TransactionRequest) : outcome bool :=
  match tr with
  | None => Panics "invalid memory address or nil pointer dereference"
  | Some r =>
      if is_nil (Value r) || is_nil (Signature r) || is_nil (SenderBlockchainAddress r)
         || is_nil (RecipientBlockchainAddress r) || is_nil (SenderPublicKey r)
      then Returns false
      else Returns true
  end.

(** The five keys of a request, by their struct tags. *)
Definition TransactionRequest_keys : list string :=
  [ "sender_blockchain_address"; "recipient_blockchain_address";
    "sender_public_key"; "value"; "signature" ].

(** ** [Blockchain] as JSON, writing side *)

Definition Block_pointer_document (b : ptr Block) : json :=
  match b with
  | None => JNull
  | Some b => Block_document b
  end.

Definition Chain_document (c : slice (ptr Block)) : json :=
  match c with
  | None => JNull
  | Some l => JArr (map Block_pointer_document l)
  end.

(** [Blockchain.MarshalJSON]. *)
Definition Blockchain_document (bc : Blockchain) : json :=
  JObj [ ("chains", Chain_document (chain bc)) ].

Definition Blockchain_MarshalJSON (bc : Blockchain) : string :=
  json_encode (Blockchain_document bc).

Section DecodingRequests.

Context {lib : Library}.

(** A member stored through a [*string] field.  Null sets the pointer
    to nil.  For any other value the decoder first makes a nil pointer
    point to a new, empty string; a JSON string is then stored, and a
    value of another kind is refused and leaves the string as it is. *)
Definition allocated {A : Type} (zero : A) (old : ptr A) : ptr A :=
  match old with
  | None => Some zero
  | Some a => Some a
  end.

Definition store_string (old : ptr string) (v : json) : ptr string * bool :=
  match v with
  | JNull => (None, false)
  | JStr s => (Some s, false)
  | _ => (allocated EmptyString old, true)
  end.

Definition store_float32 (old : ptr float32) (v : json) : ptr float32 * bool :=
  match v with
  | JNull => (None, false)
  | JNum lit =>
      match ParseFloat32 lit with
      | Some f => (Some f, false)
      | None => (allocated (SpecFloat.S754_zero false) old, true)
      end
  | _ => (allocated (SpecFloat.S754_zero false) old, true)
  end.

(** One member of the object decoded into a [TransactionRequest]; the
    flag records that some member was refused. *)
Definition TransactionRequest_member (st : TransactionRequest * bool)
    (kv : string * json) : TransactionRequest * bool :=
  let (r, err) := st in
  let (key, v) := kv in
  if names key "sender_blockchain_address" then
    let (p, e) := store_string (SenderBlockchainAddress r) v in
    (mkTransactionRequest p (RecipientBlockchainAddress r) (SenderPublicKey r)
                          (Value r) (Signature r), err || e)
  else if names key "recipient_blockchain_address" then
    let (p, e) := store_string (RecipientBlockchainAddress r) v in
    (mkTransactionRequest (SenderBlockchainAddress r) p (SenderPublicKey r)
                          (Value r) (Signature r), err || e)
  else if names key "sender_public_key" then
    let (p, e) := store_string (SenderPublicKey r) v in
    (mkTransactionRequest (SenderBlockchainAddress r) (RecipientBlockchainAddress r) p
                          (Value r) (Signature r), err || e)
  else if names key "value" then
    let (p, e) := store_float32 (Value r) v in
    (mkTransactionRequest (SenderBlockchainAddress r) (RecipientBlockchainAddress r)
                          (SenderPublicKey r) p (Signature r), err || e)
  else if names key "signature" then
    let (p, e) := store_string (Signature r) v in
    (mkTransactionRequest (SenderBlockchainAddress r) (RecipientBlockchainAddress r)
                          (SenderPublicKey r) (Value r) p, err || e)
  else st.

Definition zero_TransactionRequest : TransactionRequest :=
  mkTransactionRequest None None None None None.

(** [decode.Decode(&t)] for [var t *TransactionRequest], as the request
    handlers call it: the pointer [t] afterwards, and whether an error
    was returned.  [None] is a body that holds no JSON value; null
    leaves [t] nil without an error; any other value allocates [t]. *)
Definition decode_TransactionRequest (body : option json)
    : ptr TransactionRequest * bool :=
  match body with
  | None => (None, true)
  | Some JNull => (None, false)
  | Some (JObj members) =>
      let (r, err) := fold_left TransactionRequest_member members
                        (zero_TransactionRequest, false) in
      (Some r, err)
  | Some _ => (Some zero_TransactionRequest, true)
  end.

(** ** [Blockchain] as JSON, reading side *)

(** A JSON array decoded into a fresh [[]*Block], element by element:
    null gives a nil pointer, any other element a new [Block] filled
    by its [UnmarshalJSON].  The first element that is refused ends the
    decoding with its error ([None]); a panic goes through. *)
Fixpoint decode_blocks (items : list json) : outcome (option (list (ptr Block))) :=
  match items with
  | [] => Returns (Some [])
  | JNull :: rest =>
      r <- decode_blocks rest ;;
      Returns (option_map (cons None) r)
  | doc :: rest =>
      b <- Block_UnmarshalJSON doc ;;
      match b with
      | inl b =>
          r <- decode_blocks rest ;;
          Returns (option_map (cons (Some b)) r)
      | inr _ => Returns None
      end
  end.

(** The struct [Blockchain.UnmarshalJSON] hands to [json.Unmarshal]: one
    pointer, to the receiver's [chain].  [bc_stopped] is set when an
    element's error has ended the decoding; the members after it are
    not looked at. *)
Record Blockchain_target : Type := mkBlockchainTarget {
  bc_chain : slice (ptr Block);
  bc_Blocks : bool;
  bc_err : bool;
  bc_stopped : bool
}.

Definition Blockchain_member (st : outcome Blockchain_target) (kv : string * json)
    : outcome Blockchain_target :=
  st <- st ;;
  let (key, v) := kv in
  if bc_stopped st then Returns st
  else if names key "chain" then
    match v with
    | JNull => Returns (mkBlockchainTarget (bc_chain st) false (bc_err st) false)
    | JArr items =>
        r <- decode_blocks items ;;
        match r with
        | Some l =>
            Returns (mkBlockchainTarget (if bc_Blocks st then Some l else bc_chain st)
                                        (bc_Blocks st) (bc_err st) false)
        | None => Returns (mkBlockchainTarget (bc_chain st) (bc_Blocks st) true true)
        end
    | _ => Returns (mkBlockchainTarget (bc_chain st) (bc_Blocks st) true false)
    end
  else Returns st.

(** [Blockchain.UnmarshalJSON] on a receiver as [ResolveConflicts]
    declares it, [var bcResp Blockchain]: [inl c] is [bcResp.chain]
    after [return nil], [inr] a returned error.  A second member for
    [chain] would be decoded into the blocks of the first; the model
    covers documents that name [chain] at most once. *)
Definition Blockchain_UnmarshalJSON (doc : json) : outcome (slice (ptr Block) + error) :=
  match doc with
  | JNull => Returns (inl None)
  | JObj members =>
      st <- fold_left Blockchain_member members
              (Returns (mkBlockchainTarget None true false false)) ;;
      if bc_err st then Returns (inr DecodeError) else Returns (inl (bc_chain st))
  | _ => Returns (inr DecodeError)
  end.

End DecodingRequests.

(** ** A block under the keys that are read *)

(** What [Block.MarshalJSON] writes, with the key [previous_hash], which
    [Block.UnmarshalJSON] reads, in the place of [previous-hash]. *)
Definition Block_document_as_read (b : Block) : json :=
  JObj [ ("timestamp", JNum (itoa (timestamp b)));
         ("nonce", JNum (itoa (nonce b)));
         ("previous_hash", JStr (hex (previousHash b)));
         ("transactions", Transactions_document (transactions b)) ].

(** The transactions of a block once through JSON: every transaction
    has become the zero transaction. *)
Definition blank (ts : slice (ptr Transaction)) : slice (ptr Transaction) :=
  option_map (map (option_map (fun _ : Transaction => zero_Transaction))) ts.

(** A byte. *)
Definition is_byte_value (b : Z) : Prop := 0 <= b < 256.

(** ** What a request object supplies *)

(** The value of the last member whose key selects [field]. *)
Fixpoint last_named (field : string) (members : list (string * json)) : option json :=
  match members with
  | [] => None
  | (k, v) :: rest =>
      match last_named field rest with
      | Some v' => Some v'
      | None => if names k field then Some v else None
      end
  end.

(** The object has a member for [field], and the last one is not null. *)
Definition supplied (members : list (string * json)) (field : string) : bool :=
  match last_named field members with
  | None | Some JNull => false
  | Some _ => true
  end.

(** ** Peers that run this program *)

Section Peers.

Context {lib : Library}.

(** The neighbor answers [/chain] with what [Blockchain.MarshalJSON]
    writes for some ledger [peer], and [decoder.Decode] leaves [c] in
    [bcResp.chain]. *)
Definition answers_as_peer (net : network) (n : string) : Prop :=
  exists peer c,
    Blockchain_UnmarshalJSON (Blockchain_document peer) = Returns (inl c)
    /\ net (chain_endpoint n) = Replied 200 (Returns c).

End Peers.

(** ** More sample data *)

(** Neighbors that run this program. *)
Definition sample_peer_net : network :=
  fun _ => Replied 200 (Returns None).

(** * Properties *)

Example SHA256_constants :
  nth 0 SHA256.K 0 = 0x428a2f98 /\ nth 63 SHA256.K 0 = 0xc67178f2
  /\ SHA256.ha SHA256.init = 0x6a09e667 /\ SHA256.hh SHA256.init = 0x5be0cd19.
Proof. vm_compute. repeat split. Qed.

Example Sum256_empty :
  hex (SHA256.Sum256 []) =
  "e3b0c44298fc1c149afbf4c8996fb92427ae41e4649b934ca495991b7852b855".
Proof. vm_compute. reflexivity. Qed.

Example Sum256_abc :
  hex (SHA256.Sum256 (bytes_of_string "abc")) =
  "ba7816bf8f01cfea414140de5dae2223b00361a396177a9cb410ff61f20015ad".
Proof. vm_compute. reflexivity. Qed.

Example Sum256_two_blocks :
  hex (SHA256.Sum256 (bytes_of_string
    "abcdbcdecdefdefgefghfghighijhijkijkljklmklmnlmnomnopnopq")) =
  "248d6a61d20638b8e5c026930c3e6039a33ce45964ff2167f6ecedd419db06c1".
Proof. vm_compute. reflexivity. Qed.

Example itoa_examples :
  itoa 0 = "0" /\ itoa 1700000000000000000 = "1700000000000000000" /\ itoa (-42) = "-42".
Proof. vm_compute. repeat split. Qed.

Example zero_Block_json :
  json_Marshal_Block (Some zero_Block) =
  ("{" ++ dq ++ "timestamp" ++ dq ++ ":0," ++ dq ++ "nonce" ++ dq ++ ":0,"
     ++ dq ++ "previous-hash" ++ dq ++ ":" ++ dq
     ++ "0000000000000000000000000000000000000000000000000000000000000000" ++ dq
     ++ "," ++ dq ++ "transactions" ++ dq ++ ":null}")%string.
Proof. vm_compute. reflexivity. Qed.

Example sample_hashes :
  hex (Hash (Some zero_Block)) = "65bf7a51fad9b27c38c175f645c4978e7dc5840293b9102f987ef46c70a0855f"
  /\ hex (Hash (Some block0)) = "c2c02142a8f2e47c28b667e50e1413eb457ade36a97c0353c74358e595658f51"
  /\ hex (Hash (Some block1)) = "de46720eaad2d34e26e8fc1ca5924e13e4df9846e9d27f7a7fea4a067f5ea1f8"
  /\ hex (Hash (Some block2)) = "1a64c71473bb60fbb5e2e99a3cee4f92543a3caadfefcbcc967b58b3f303bcf8"
  /\ hex (Hash (Some block3)) = "4776872b093d8a0d92e69c0bfef868c9f09f29fab2cdd9e625de21102f9aa80d".
Proof. vm_compute. repeat split. Qed.

Example sample_runs :
  AddTransaction (lib := sample_lib) MiningSender "alice" MiningReward None None sample_new
    = Returns (sample_pending, true)
  /\ Mining (lib := sample_lib) 2 t1 sample_pending = Returns (sample_mined, true)
  /\ ValidChain chain3 = Returns true
  /\ ValidChain chain4 = Returns true
  /\ ValidChain chain5_invalid = Returns false.
Proof. vm_compute. repeat split. Qed.

(** ** Hashes and their hexadecimal text *)

#[local] Arguments SHA256.Sum256 : simpl never.
#[local] Arguments Hash : simpl never.
#[local] Arguments Z.mul : simpl never.
#[local] Arguments Z.add : simpl never.
#[local] Arguments Z.to_nat : simpl never.

Lemma be_bytes_length (n : nat) (x : Z) : List.length (SHA256.be_bytes n x) = n.
Proof.
  unfold SHA256.be_bytes.
  rewrite length_map, length_rev, length_seq. reflexivity.
Qed.

Lemma Sum256_length (msg : list Z) : List.length (SHA256.Sum256 msg) = 32%nat.
Proof.
  unfold SHA256.Sum256, SHA256.digest_of. cbn [flat_map].
  repeat rewrite length_app. repeat rewrite be_bytes_length. reflexivity.
Qed.

Lemma hex_length (bs : list Z) : String.length (hex bs) = (2 * List.length bs)%nat.
Proof.
  induction bs as [|b bs IH]; [reflexivity|].
  cbn [hex String.length List.length]. rewrite IH. lia.
Qed.

#[local] Arguments hex : simpl never.

Lemma Hash_hex_length (b : ptr Block) : String.length (hex (Hash b)) = 64%nat.
Proof.
  rewrite hex_length. unfold Hash. rewrite Sum256_length. reflexivity.
Qed.

(** ** Prefixes of zeros *)

Lemma leading_zeros_length (k : nat) (s : string) :
  leading_zeros k s -> (k <= String.length s)%nat.
Proof.
  revert s. induction k as [|k IH]; intros s [rest Hs]; [lia|].
  subst s. cbn [strings_Repeat String.append String.length].
  apply le_n_S, IH. exists rest. reflexivity.
Qed.

Lemma substring_zeros (k : nat) (s : string) :
  String.eqb (substring 0 k s) (strings_Repeat "0" k) = true /\ (k <= String.length s)%nat
  <-> leading_zeros k s.
Proof.
  revert s. induction k as [|k IH]; intros s.
  - split.
    + intros _. exists s. reflexivity.
    + intros _. destruct s; cbn; split; auto; lia.
  - destruct s as [|c s].
    + split.
      * intros [_ H]. cbn in H. lia.
      * intros [rest H]. discriminate H.
    + cbn [substring strings_Repeat String.append String.length String.eqb].
      split.
      * intros [H Hlen].
        destruct (Ascii.eqb_spec c "0") as [->|]; [|discriminate].
        destruct (proj1 (IH s)) as [rest Hrest]; [split; [exact H | lia]|].
        exists rest. cbn. rewrite <- Hrest. reflexivity.
      * intros [rest H]. cbn in H. injection H as -> Hs.
        rewrite Ascii.eqb_refl.
        destruct (proj2 (IH s)) as [H1 H2]; [exists rest; exact Hs|].
        split; [exact H1 | lia].
Qed.

(** ** [ValidProof] *)

Lemma ValidProof_spec (nonce : Z) (ph : list Z) (txs : slice (ptr Transaction)) (D : Z) :
  ValidProof nonce ph txs D = Returns true
  <-> exists k : nat,
        D = Z.of_nat k
        /\ leading_zeros k (hex (Hash (Some (mkBlock 0 nonce ph txs)))).
Proof.
  unfold ValidProof.
  destruct (Z.ltb_spec D 0) as [Hneg|Hpos].
  - split; [discriminate|]. intros (k & -> & _). lia.
  - generalize (hex (Hash (Some (mkBlock 0 nonce ph txs)))). intros h.
    destruct (Z.ltb_spec (Z.of_nat (String.length h)) D) as [Hlong|Hfit].
    + split; [discriminate|]. intros (k & -> & Hz).
      apply leading_zeros_length in Hz. lia.
    + split.
      * intros [= H]. exists (Z.to_nat D). split; [lia|].
        apply substring_zeros. split; [exact H | lia].
      * intros (k & -> & Hz). rewrite Nat2Z.id.
        apply substring_zeros in Hz. destruct Hz as [-> _]. reflexivity.
Qed.

(** At the mining difficulty [ValidProof] always answers. *)
Lemma ValidProof_answers (nonce : Z) (ph : list Z) (txs : slice (ptr Transaction)) :
  exists ok, ValidProof nonce ph txs MiningDifficulty = Returns ok.
Proof.
  unfold ValidProof, MiningDifficulty.
  rewrite Hash_hex_length. cbn [Z.ltb Z.compare Z.of_nat Pos.of_succ_nat].
  eexists. reflexivity.
Qed.

Lemma ValidProof_mined (b : Block) :
  ValidProof (nonce b) (previousHash b) (transactions b) MiningDifficulty = Returns true
  <-> candidate_hash_mined b.
Proof.
  rewrite ValidProof_spec. unfold candidate_hash_mined, MiningDifficulty. split.
  - intros (k & Hk & Hz). replace (Z.to_nat 3) with k by lia. exact Hz.
  - intros Hz. exists (Z.to_nat 3). split; [reflexivity | exact Hz].
Qed.

(** ** The nonce search *)

Lemma wrap64_in_range (z : Z) : int64_min <= z <= int64_max -> wrap64 z = z.
Proof.
  unfold wrap64, int64_min, int64_max. intros H.
  rewrite Z.mod_small; lia.
Qed.

(** If the nonce [start + k] solves the puzzle, a search started at
    [start] stops at the first solution, given fuel to reach it. *)
Lemma ProofOfWork_search_least (ph : list Z) (txs : slice (ptr Transaction)) (k : nat) :
  forall start : Z,
    0 <= start ->
    start + Z.of_nat k <= int64_max ->
    ValidProof (start + Z.of_nat k) ph txs MiningDifficulty = Returns true ->
    exists n : Z,
      start <= n <= start + Z.of_nat k
      /\ ValidProof n ph txs MiningDifficulty = Returns true
      /\ (forall m, start <= m < n -> ValidProof m ph txs MiningDifficulty = Returns false)
      /\ (forall fuel : nat, n - start < Z.of_nat fuel ->
            ProofOfWork_search fuel start ph txs = Returns n).
Proof.
  induction k as [|k IH]; intros start Hstart Hmax Hk.
  - replace (start + Z.of_nat 0) with start in Hk by lia.
    exists start. repeat split; try lia.
    + exact Hk.
    + intros fuel Hfuel. destruct fuel as [|fuel]; [lia|].
      cbn [ProofOfWork_search]. rewrite Hk. reflexivity.
  - destruct (ValidProof_answers start ph txs) as [[|] Hs].
    + exists start. repeat split; try lia.
      * exact Hs.
      * intros fuel Hfuel. destruct fuel as [|fuel]; [lia|].
        cbn [ProofOfWork_search]. rewrite Hs. reflexivity.
    + destruct (IH (start + 1)) as (n & Hn & Hv & Hleast & Hrun); try lia.
      * replace (start + 1 + Z.of_nat k) with (start + Z.of_nat (S k)) by lia. exact Hk.
      * exists n. repeat split; try lia.
        -- exact Hv.
        -- intros m Hm. destruct (Z.eq_dec m start) as [->|Hne]; [exact Hs|].
           apply Hleast. lia.
        -- intros fuel Hfuel. destruct fuel as [|fuel]; [lia|].
           cbn [ProofOfWork_search]. rewrite Hs. cbn [bind].
           rewrite wrap64_in_range by (unfold int64_min, int64_max in *; lia).
           apply Hrun. lia.
Qed.

(** What a returning search has established. *)
Lemma ProofOfWork_search_valid (ph : list Z) (txs : slice (ptr Transaction)) (fuel : nat) :
  forall start n,
    ProofOfWork_search fuel start ph txs = Returns n ->
    ValidProof n ph txs MiningDifficulty = Returns true.
Proof.
  induction fuel as [|fuel IH]; intros start n H; [discriminate|].
  cbn [ProofOfWork_search] in H.
  destruct (ValidProof start ph txs MiningDifficulty) as [[|]| |] eqn:Hs;
    cbn [bind] in H; try discriminate.
  - injection H as <-. exact Hs.
  - eapply IH. exact H.
Qed.

Lemma ProofOfWork_least (bc : Blockchain) (txs : slice (ptr Transaction))
    (last : ptr Block) (n0 : Z) :
  CopyTransactionPool bc = Returns txs ->
  LastBlock bc = Returns last ->
  0 <= n0 <= int64_max ->
  ValidProof n0 (Hash last) txs MiningDifficulty = Returns true ->
  exists n : Z,
    0 <= n <= n0
    /\ ValidProof n (Hash last) txs MiningDifficulty = Returns true
    /\ (forall m, 0 <= m < n ->
          ValidProof m (Hash last) txs MiningDifficulty = Returns false)
    /\ (forall fuel : nat, n < Z.of_nat fuel -> ProofOfWork fuel bc = Returns n).
Proof.
  intros Hcopy Hlast Hn0 Hvalid.
  destruct (ProofOfWork_search_least (Hash last) txs (Z.to_nat n0) 0)
    as (n & Hn & Hv & Hleast & Hrun); try lia.
  - rewrite Z2Nat.id by lia. exact Hvalid.
  - exists n. rewrite Z2Nat.id in Hn by lia. repeat split; try lia.
    + exact Hv.
    + exact Hleast.
    + intros fuel Hfuel. unfold ProofOfWork. rewrite Hcopy, Hlast. cbn [bind].
      apply Hrun. lia.
Qed.

(** C3: [ValidProof] returns true exactly when the hexadecimal SHA-256
    hash of the candidate block with timestamp 0 starts with [D]
    characters ['0'], for every difficulty [D]; and when some
    non-negative nonce solves the puzzle for the copy of the pool and
    the hash of the last block, [ProofOfWork], counting up from 0,
    returns the smallest one. *)
Theorem ValidProof_iff_and_ProofOfWork_smallest :
  (forall (nonce : Z) (ph : list Z) (txs : slice (ptr Transaction)) (D : Z),
      ValidProof nonce ph txs D = Returns true
      <-> exists k : nat,
            D = Z.of_nat k
            /\ leading_zeros k (hex (Hash (Some (mkBlock 0 nonce ph txs)))))
  /\ (forall (bc : Blockchain) (txs : slice (ptr Transaction)) (last : ptr Block) (n0 : Z),
        CopyTransactionPool bc = Returns txs ->
        LastBlock bc = Returns last ->
        0 <= n0 <= int64_max ->
        ValidProof n0 (Hash last) txs MiningDifficulty = Returns true ->
        exists n : Z,
          0 <= n <= n0
          /\ ValidProof n (Hash last) txs MiningDifficulty = Returns true
          /\ (forall m, 0 <= m < n ->
                ValidProof m (Hash last) txs MiningDifficulty = Returns false)
          /\ (forall fuel : nat, n < Z.of_nat fuel -> ProofOfWork fuel bc = Returns n)).
Proof.
  split.
  - exact ValidProof_spec.
  - exact ProofOfWork_least.
Qed.

(** C3 at the sample node: nonce 1 solves the puzzle over the pool
    copy and the genesis hash, and the search returns it. *)
Lemma ValidProof_iff_and_ProofOfWork_smallest_witness :
  CopyTransactionPool sample_rewarded = Returns sample_txs
  /\ LastBlock sample_rewarded = Returns (Some block0)
  /\ 0 <= 1 <= int64_max
  /\ ValidProof 1 (Hash (Some block0)) sample_txs MiningDifficulty = Returns true
  /\ exists n : Z,
       0 <= n <= 1
       /\ ValidProof n (Hash (Some block0)) sample_txs MiningDifficulty = Returns true
       /\ (forall m, 0 <= m < n ->
             ValidProof m (Hash (Some block0)) sample_txs MiningDifficulty = Returns false)
       /\ (forall fuel : nat, n < Z.of_nat fuel ->
             ProofOfWork fuel sample_rewarded = Returns n).
Proof.
  assert (H1 : CopyTransactionPool sample_rewarded = Returns sample_txs)
    by (vm_compute; reflexivity).
  assert (H2 : LastBlock sample_rewarded = Returns (Some block0))
    by (vm_compute; reflexivity).
  assert (H3 : 0 <= 1 <= int64_max) by (unfold int64_max; lia).
  assert (H4 : ValidProof 1 (Hash (Some block0)) sample_txs MiningDifficulty = Returns true)
    by (vm_compute; reflexivity).
  repeat (split; [assumption|]).
  exact (proj2 ValidProof_iff_and_ProofOfWork_smallest
           sample_rewarded sample_txs (Some block0) 1 H1 H2 H3 H4).
Defined.

(** ** [ValidChain] *)

Lemma ValidChain_walk_answers (rest : list Block) :
  forall pre : ptr Block, exists ok, ValidChain_walk pre (map Some rest) = Returns ok.
Proof.
  induction rest as [|b rest IH]; intros pre; cbn [map ValidChain_walk].
  - eexists. reflexivity.
  - destruct (negb (bytes_eqb (previousHash b) (Hash pre))); [eexists; reflexivity|].
    destruct (ValidProof_answers (nonce b) (previousHash b) (transactions b)) as [ok ->].
    cbn [bind]. destruct ok; cbn [negb]; [apply IH | eexists; reflexivity].
Qed.

(** C9: [ValidChain] reads [chain[0]] before the walk, so on an empty
    sequence of blocks, nil or not, it panics with an index out of
    range instead of returning a boolean; on a non-empty sequence of
    blocks it returns one. *)
Theorem ValidChain_empty_panics :
  ValidChain None = Panics "index out of range [0] with length 0"
  /\ ValidChain (Some []) = Panics "index out of range [0] with length 0"
  /\ (forall (pre : ptr Block) (rest : list Block),
        exists ok, ValidChain (Some (pre :: map Some rest)) = Returns ok).
Proof.
  split; [reflexivity|]. split; [reflexivity|].
  intros pre rest. unfold ValidChain. cbn [elems].
  apply ValidChain_walk_answers.
Qed.

(** ** [Mining] *)

Section MiningProperties.

Context {lib : Library}.

(** C8: with an empty pool [Mining] returns false and the
    [Blockchain] it returns is the one it was given, field for field. *)
Theorem Mining_empty_pool_no_change (fuel : nat) (now : Z) (bc : Blockchain) :
  len (transactionPool bc) = 0%nat ->
  Mining fuel now bc = Returns (bc, false).
Proof.
  intros Hlen. unfold Mining. rewrite Hlen. reflexivity.
Qed.

Lemma copy_transactions_same (pool copy : list (ptr Transaction)) :
  copy_transactions pool = Returns copy -> copy = pool.
Proof.
  revert copy. induction pool as [|[t|] pool IH]; intros copy H; cbn [copy_transactions] in H.
  - injection H as <-. reflexivity.
  - destruct (copy_transactions pool) as [rest| |]; cbn [bind] in H; try discriminate.
    injection H as <-. rewrite (IH rest eq_refl). destruct t. reflexivity.
  - discriminate.
Qed.

Lemma CopyTransactionPool_same (bc : Blockchain) (txs : slice (ptr Transaction)) :
  CopyTransactionPool bc = Returns txs -> txs = Some (elems (transactionPool bc)).
Proof.
  unfold CopyTransactionPool. intros H.
  destruct (copy_transactions (elems (transactionPool bc))) as [l| |] eqn:Hc;
    cbn [bind] in H; try discriminate.
  injection H as <-. rewrite (copy_transactions_same _ _ Hc). reflexivity.
Qed.

Lemma LastBlock_last (bc : Blockchain) (last : ptr Block) :
  LastBlock bc = Returns last ->
  exists front, elems (chain bc) = front ++ [last].
Proof.
  unfold LastBlock. intros H.
  destruct (rev (elems (chain bc))) as [|b r] eqn:Hrev; [discriminate|].
  injection H as ->. exists (rev r).
  rewrite <- (rev_involutive (elems (chain bc))), Hrev. reflexivity.
Qed.

(** What a run of [Mining] that returns true has done. *)
Lemma Mining_true_inv (fuel : nat) (now : Z) (bc bc' : Blockchain) :
  Mining fuel now bc = Returns (bc', true) ->
  exists (last : ptr Block) (nonce : Z),
    let reward := NewTransaction MiningSender (blockchainAddress bc) MiningReward in
    let txs := Some (elems (transactionPool bc) ++ [Some reward]) in
    let b := mkBlock now nonce (Hash last) txs in
    LastBlock bc = Returns last
    /\ len (transactionPool bc) <> 0%nat
    /\ ValidProof nonce (Hash last) txs MiningDifficulty = Returns true
    /\ bc' = mkBlockchain (Some []) (Some (elems (chain bc) ++ [Some b]))
                          (blockchainAddress bc) (port bc) (neighbors bc).
Proof.
  unfold Mining. destruct (Nat.eqb_spec (len (transactionPool bc)) 0) as [|Hne];
    [discriminate|].
  unfold AddTransaction. rewrite String.eqb_refl. cbn [bind fst].
  unfold ProofOfWork.
  destruct (CopyTransactionPool _) as [txs| |] eqn:Hcopy; cbn [bind]; try discriminate.
  apply CopyTransactionPool_same in Hcopy. cbn in Hcopy.
  unfold LastBlock at 1 2. cbn [with_pool chain].
  destruct (rev (elems (chain bc))) as [|last r] eqn:Hrev; cbn [bind]; try discriminate.
  destruct (ProofOfWork_search fuel 0 (Hash last) txs) as [nonce| |] eqn:Hpow;
    cbn [bind]; try discriminate.
  intros [= <-]. exists last, nonce. cbn zeta.
  apply ProofOfWork_search_valid in Hpow. subst txs.
  repeat split.
  - unfold LastBlock. rewrite Hrev. reflexivity.
  - exact Hne.
  - exact Hpow.
Qed.

Lemma copy_transactions_total (pool : list (ptr Transaction)) :
  Forall (fun t => t <> None) pool -> copy_transactions pool = Returns pool.
Proof.
  induction 1 as [|[t|] pool Ht _ IH]; cbn [copy_transactions].
  - reflexivity.
  - rewrite IH. cbn [bind]. destruct t. reflexivity.
  - contradiction.
Qed.

(** [Mining] does return true: on a pool that is not empty and holds no
    nil pointer and a chain that is not empty, once the fuel exceeds
    the least nonce that solves the puzzle. *)
Lemma Mining_returns_true (now : Z) (bc : Blockchain) (last : ptr Block) (n0 : Z) :
  let reward := NewTransaction MiningSender (blockchainAddress bc) MiningReward in
  let txs := Some (elems (transactionPool bc) ++ [Some reward]) in
  len (transactionPool bc) <> 0%nat ->
  Forall (fun t => t <> None) (elems (transactionPool bc)) ->
  LastBlock bc = Returns last ->
  0 <= n0 <= int64_max ->
  ValidProof n0 (Hash last) txs MiningDifficulty = Returns true ->
  exists (n : Z) (bc' : Blockchain),
    0 <= n <= n0
    /\ forall fuel : nat, n < Z.of_nat fuel -> Mining fuel now bc = Returns (bc', true).
Proof.
  intros reward txs Hlen Hpool Hlast Hn0 Hvalid.
  set (bc1 := with_pool bc txs).
  assert (Hcopy : CopyTransactionPool bc1 = Returns txs).
  { unfold CopyTransactionPool. cbn [bc1 with_pool transactionPool txs elems].
    rewrite copy_transactions_total; [reflexivity|].
    apply Forall_app. split; [exact Hpool|]. constructor; [discriminate|constructor]. }
  assert (Hlast1 : LastBlock bc1 = Returns last) by exact Hlast.
  destruct (ProofOfWork_least bc1 txs last n0 Hcopy Hlast1 Hn0 Hvalid)
    as (n & Hn & _ & _ & Hrun).
  exists n, (fst (CreateBlock now n (Hash last) bc1)). split; [exact Hn|].
  assert (Hadd : AddTransaction MiningSender (blockchainAddress bc) MiningReward
                   None None bc = Returns (bc1, true)).
  { unfold AddTransaction. rewrite String.eqb_refl. reflexivity. }
  intros fuel Hfuel. unfold Mining.
  destruct (Nat.eqb_spec (len (transactionPool bc)) 0) as [|_]; [contradiction|].
  rewrite Hadd. cbn [bind fst].
  rewrite (Hrun fuel Hfuel), Hlast1. reflexivity.
Qed.

(** C4: when [Mining] returns true the pool is empty, the chain is one
    block longer, and the last block holds the transactions of the
    pool before the call followed by one reward transaction from
    [MiningSender] to this node's address, of value [MiningReward]. *)
Theorem Mining_true_appends_pool_and_reward (fuel : nat) (now : Z) (bc bc' : Blockchain) :
  Mining fuel now bc = Returns (bc', true) ->
  transactionPool bc' = Some []
  /\ len (chain bc') = S (len (chain bc))
  /\ exists b : Block,
       LastBlock bc' = Returns (Some b)
       /\ elems (chain bc') = elems (chain bc) ++ [Some b]
       /\ transactions b =
            Some (elems (transactionPool bc)
                  ++ [Some (mkTransaction MiningSender (blockchainAddress bc) MiningReward)]).
Proof.
  intros H. apply Mining_true_inv in H.
  destruct H as (last & nonce & _ & _ & _ & ->). cbn [transactionPool chain].
  split; [reflexivity|]. split.
  - unfold len. cbn [elems]. rewrite length_app. cbn. lia.
  - eexists. split; [|split; [reflexivity|reflexivity]].
    unfold LastBlock. cbn [chain elems]. rewrite rev_app_distr. reflexivity.
Qed.

End MiningProperties.

(** C8 at the sample node right after [NewBlockchain]. *)
Lemma Mining_empty_pool_no_change_witness :
  len (transactionPool sample_new) = 0%nat
  /\ Mining (lib := sample_lib) 5 t1 sample_new = Returns (sample_new, false).
Proof.
  assert (H : len (transactionPool sample_new) = 0%nat) by reflexivity.
  split; [exact H|].
  exact (Mining_empty_pool_no_change (lib := sample_lib) 5 t1 sample_new H).
Defined.

(** C4 at the sample node with one pending transaction. *)
Lemma Mining_true_appends_pool_and_reward_witness :
  Mining (lib := sample_lib) 2 t1 sample_pending = Returns (sample_mined, true)
  /\ transactionPool sample_mined = Some []
  /\ len (chain sample_mined) = S (len (chain sample_pending))
  /\ exists b : Block,
       LastBlock sample_mined = Returns (Some b)
       /\ elems (chain sample_mined) = elems (chain sample_pending) ++ [Some b]
       /\ transactions b =
            Some (elems (transactionPool sample_pending)
                  ++ [Some (mkTransaction MiningSender (blockchainAddress sample_pending)
                                          MiningReward)]).
Proof.
  assert (H : Mining (lib := sample_lib) 2 t1 sample_pending = Returns (sample_mined, true))
    by (vm_compute; reflexivity).
  split; [exact H|].
  exact (Mining_true_appends_pool_and_reward (lib := sample_lib) 2 t1
           sample_pending sample_mined H).
Defined.

(** ** Admission of transactions *)

Section AdmissionProperties.

Context {lib : Library}.

(** C7: a transaction whose sender is [MiningSender] becomes the last
    element of the pool and [true] is returned whatever key and
    signature come with it, nil included.  For any other sender, with
    a key and a signature, [true] is returned exactly when
    [ecdsa.Verify] accepts the signature for the key: the transaction
    then becomes the last element of the pool, and otherwise [false] is
    returned and the [Blockchain] is the one before; the call returns
    in both cases.  The pool before stays in front of the new element
    and nothing but the pool changes. *)
Theorem AddTransaction_bypass_and_verification :
  (forall recipient value senderPublicKey s bc,
      exists bc',
        AddTransaction MiningSender recipient value senderPublicKey s bc
        = Returns (bc', true)
        /\ elems (transactionPool bc')
           = elems (transactionPool bc)
             ++ [Some (mkTransaction MiningSender recipient value)]
        /\ chain bc' = chain bc
        /\ blockchainAddress bc' = blockchainAddress bc
        /\ port bc' = port bc
        /\ neighbors bc' = neighbors bc)
  /\ (forall sender recipient value pk sg bc,
        sender <> MiningSender ->
        let t := mkTransaction sender recipient value in
        let verifies :=
          ecdsa_Verify pk (verification_digest (Some t)) (utils.R sg) (utils.S sg) in
        (exists bc',
            AddTransaction sender recipient value (Some pk) (Some sg) bc
            = Returns (bc', verifies))
        /\ (verifies = true ->
            exists bc',
              AddTransaction sender recipient value (Some pk) (Some sg) bc
              = Returns (bc', true)
              /\ elems (transactionPool bc') = elems (transactionPool bc) ++ [Some t]
              /\ chain bc' = chain bc
              /\ blockchainAddress bc' = blockchainAddress bc
              /\ port bc' = port bc
              /\ neighbors bc' = neighbors bc)
        /\ (verifies = false ->
            AddTransaction sender recipient value (Some pk) (Some sg) bc
            = Returns (bc, false))).
Proof.
  split.
  - intros. unfold AddTransaction. rewrite String.eqb_refl.
    eexists. split; [reflexivity|]. repeat split.
  - intros sender recipient value pk sg bc Hne t verifies.
    unfold AddTransaction, VerityTransactionSignature.
    destruct (String.eqb_spec sender MiningSender) as [|_]; [contradiction|].
    cbn [bind]. change (NewTransaction sender recipient value) with t. fold verifies.
    split; [|split].
    + destruct verifies; eexists; reflexivity.
    + intros ->. eexists. split; [reflexivity|]. repeat split.
    + intros ->. reflexivity.
Qed.

(** A nil signature or a nil key, with a sender other than
    [MiningSender], is dereferenced on the way to [ecdsa.Verify]. *)
Lemma AddTransaction_nil_key_or_signature (sender recipient : string) (value : float32)
    (senderPublicKey : ptr ecdsa.PublicKey) (s : ptr utils.Signature) (bc : Blockchain) :
  sender <> MiningSender ->
  senderPublicKey = None \/ s = None ->
  AddTransaction sender recipient value senderPublicKey s bc
  = Panics "invalid memory address or nil pointer dereference".
Proof.
  intros Hne Hnil. unfold AddTransaction, VerityTransactionSignature.
  destruct (String.eqb_spec sender MiningSender) as [|_]; [contradiction|].
  destruct s as [sg|]; [|reflexivity].
  destruct senderPublicKey as [pk|]; [|reflexivity].
  destruct Hnil; discriminate.
Qed.

(** The digest does not depend on the transaction it is computed for. *)
Lemma verification_digest_constant (t1 t2 : Transaction) :
  verification_digest (Some t1) = verification_digest (Some t2).
Proof. reflexivity. Qed.

(** It is the digest the wallet signs, whatever the two transactions. *)
Lemma signing_digest_is_verification_digest (wt : wallet.Transaction) (t : Transaction) :
  wallet.signing_digest (Some wt) = verification_digest (Some t).
Proof. reflexivity. Qed.

(** What [json.Marshal] writes for a transaction is not what
    [MarshaJSON] would have written. *)
Lemma Transaction_document_not_MarshaJSON (t : Transaction) :
  Transaction_document (Some t) = JObj [] /\ MarshaJSON t <> Transaction_document (Some t).
Proof. split; [reflexivity | discriminate]. Qed.

(** Hence a signature accepted for one transaction is accepted for
    every other one. *)
Lemma VerityTransactionSignature_any_transaction
    (senderPublicKey : ptr ecdsa.PublicKey) (s : ptr utils.Signature) (t1 t2 : Transaction) :
  VerityTransactionSignature senderPublicKey s (Some t1)
  = VerityTransactionSignature senderPublicKey s (Some t2).
Proof. reflexivity. Qed.

End AdmissionProperties.

(** C7 for the sender alice at the new sample node: the sample
    verifier rejects the signature (5, 6) and accepts (11, 6) for her
    key, and her transaction is then the one element of the pool. *)
Lemma AddTransaction_bypass_and_verification_witness :
  "alice" <> MiningSender
  /\ ecdsa_Verify (Library := sample_lib) alice_key
       (verification_digest (Some (mkTransaction "alice" "bob" MiningReward))) 5 6 = false
  /\ AddTransaction (lib := sample_lib) "alice" "bob" MiningReward
       (Some alice_key) (Some (utils.mkSignature 5 6)) sample_new
     = Returns (sample_new, false)
  /\ ecdsa_Verify (Library := sample_lib) alice_key
       (verification_digest (Some (mkTransaction "alice" "bob" MiningReward))) 11 6 = true
  /\ exists bc',
       AddTransaction (lib := sample_lib) "alice" "bob" MiningReward
         (Some alice_key) (Some (utils.mkSignature 11 6)) sample_new
       = Returns (bc', true)
       /\ elems (transactionPool bc')
          = elems (transactionPool sample_new)
            ++ [Some (mkTransaction "alice" "bob" MiningReward)]
       /\ chain bc' = chain sample_new
       /\ blockchainAddress bc' = blockchainAddress sample_new
       /\ port bc' = port sample_new
       /\ neighbors bc' = neighbors sample_new.
Proof.
  assert (H : "alice" <> MiningSender) by discriminate.
  assert (Hno : ecdsa_Verify (Library := sample_lib) alice_key
                  (verification_digest (Some (mkTransaction "alice" "bob" MiningReward)))
                  5 6 = false) by reflexivity.
  assert (Hyes : ecdsa_Verify (Library := sample_lib) alice_key
                   (verification_digest (Some (mkTransaction "alice" "bob" MiningReward)))
                   11 6 = true) by reflexivity.
  split; [exact H|]. split; [exact Hno|]. split; [|split; [exact Hyes|]].
  - exact (proj2 (proj2 (proj2 (AddTransaction_bypass_and_verification (lib := sample_lib))
                    "alice" "bob" MiningReward alice_key (utils.mkSignature 5 6)
                    sample_new H)) Hno).
  - exact (proj1 (proj2 (proj2 (AddTransaction_bypass_and_verification (lib := sample_lib))
                    "alice" "bob" MiningReward alice_key (utils.mkSignature 11 6)
                    sample_new H)) Hyes).
Defined.

(** C1 on the code: two transactions that differ in sender, recipient
    and value are both marshalled as the two characters [{}], and are
    verified against one and the same digest, the SHA-256 of [{}]. *)
Theorem verification_digest_same_for_different_transactions :
  let tx1 := NewTransaction "alice" "bob" MiningReward in
  let tx2 := NewTransaction "carol" "dave" (SpecFloat.S754_finite false 12582912 (-17)) in
  json_Marshal_Transaction (Some tx1) = "{}"
  /\ json_Marshal_Transaction (Some tx2) = "{}"
  /\ hex (verification_digest (Some tx1))
     = "44136fa355b3678a1146ad16f7e8649e94fb4fc21fe77e8310c060f61caaff8a"
  /\ verification_digest (Some tx1) = verification_digest (Some tx2).
Proof. vm_compute. repeat split. Qed.

(** ** Conflict resolution *)

Lemma whole_ValidChain (c : slice (ptr Block)) :
  whole c -> exists ok, ValidChain c = Returns ok.
Proof.
  intros (pre & rest & Hc). unfold ValidChain. rewrite Hc.
  apply ValidChain_walk_answers.
Qed.

(** The scan returns the first of the longest valid chains reported with
    status 200 that are longer than [maxLength], if there is one. *)
Lemma ResolveConflicts_scan_spec (net : network) (ns : list string) :
  forall (maxLength : nat) (longestChain : slice (ptr Block)),
    all_answer net ns ->
    exists (maxLength' : nat) (longestChain' : slice (ptr Block)),
      ResolveConflicts_scan net ns (maxLength, longestChain)
      = Returns (maxLength', longestChain')
      /\ (maxLength <= maxLength')%nat
      /\ (forall n c, In n ns -> reports net n 200 c ->
            ValidChain c = Returns true -> (len c <= maxLength')%nat)
      /\ ((maxLength' = maxLength /\ longestChain' = longestChain)
          \/ (exists n, In n ns /\ reports net n 200 longestChain'
                /\ ValidChain longestChain' = Returns true
                /\ (maxLength < len longestChain')%nat
                /\ maxLength' = len longestChain')).
Proof.
  induction ns as [|n ns IH]; intros maxLength longestChain Hall.
  - exists maxLength, longestChain. cbn [ResolveConflicts_scan].
    repeat split; auto. intros n c [].
  - assert (Hrest : all_answer net ns) by (intros m Hm; apply Hall; right; exact Hm).
    destruct (Hall n (or_introl eq_refl)) as (s & c & Hrep & Hc).
    cbn [ResolveConflicts_scan]. unfold ResolveConflicts_visit.
    unfold reports in Hrep. rewrite Hrep.
    (* the pass over [n] leaves the state as it is *)
    assert (Hkeep :
      (forall c', reports net n 200 c' -> ValidChain c' = Returns true ->
                  (len c' <= maxLength)%nat) ->
      exists (maxLength' : nat) (longestChain' : slice (ptr Block)),
        ResolveConflicts_scan net ns (maxLength, longestChain)
        = Returns (maxLength', longestChain')
        /\ (maxLength <= maxLength')%nat
        /\ (forall n0 c0, In n0 (n :: ns) -> reports net n0 200 c0 ->
              ValidChain c0 = Returns true -> (len c0 <= maxLength')%nat)
        /\ ((maxLength' = maxLength /\ longestChain' = longestChain)
            \/ (exists n0, In n0 (n :: ns) /\ reports net n0 200 longestChain'
                  /\ ValidChain longestChain' = Returns true
                  /\ (maxLength < len longestChain')%nat
                  /\ maxLength' = len longestChain'))).
    { intros Hn.
      destruct (IH maxLength longestChain Hrest) as (m' & l' & Hscan & Hle & Hmax & Hres).
      exists m', l'. split; [exact Hscan|]. split; [exact Hle|]. split.
      - intros n0 c0 [<-|Hin] Hr Hv.
        + specialize (Hn c0 Hr Hv). lia.
        + eapply Hmax; eauto.
      - destruct Hres as [Hsame | (n0 & Hin & Hr & Hv & Hlt & Hm)]; [left; exact Hsame|].
        right. exists n0. repeat split; auto. right. exact Hin. }
    assert (Hother : forall c', reports net n 200 c' -> s = 200 /\ c' = c).
    { unfold reports. intros c' Hr. rewrite Hrep in Hr. injection Hr as -> ->. auto. }
    destruct (Z.eqb_spec s 200) as [->|Hs]; cbn [bind].
    + destruct (Nat.ltb_spec maxLength (len c)) as [Hlt|Hge].
      * destruct Hc as [Hc|Hc]; [lia|].
        destruct (whole_ValidChain c Hc) as [ok Hok]. rewrite Hok. cbn [bind].
        destruct ok.
        -- destruct (IH (len c) c Hrest) as (m' & l' & Hscan & Hle & Hmax & Hres).
           exists m', l'. split; [exact Hscan|]. split; [lia|]. split.
           ++ intros n0 c0 [<-|Hin] Hr Hv.
              ** destruct (Hother c0 Hr) as [_ ->]. exact Hle.
              ** eapply Hmax; eauto.
           ++ right. destruct Hres as [[-> ->] | (n0 & Hin & Hr & Hv & Hlt' & Hm)].
              ** exists n. repeat split; auto. left. reflexivity.
              ** exists n0. repeat split; auto; [right; exact Hin | lia].
        -- apply Hkeep. intros c' Hr Hv. destruct (Hother c' Hr) as [_ ->].
           rewrite Hok in Hv. discriminate.
      * apply Hkeep. intros c' Hr Hv. destruct (Hother c' Hr) as [_ ->]. exact Hge.
    + apply Hkeep. intros c' Hr _. destruct (Hother c' Hr) as [Hs' _]. contradiction.
Qed.

Lemma ResolveConflicts_spec (net : network) (bc : Blockchain) :
  all_answer net (elems (neighbors bc)) ->
  exists (bc' : Blockchain) (replaced : bool),
    ResolveConflicts net bc = Returns (bc', replaced)
    /\ (replaced = true <->
        exists n c, In n (elems (neighbors bc)) /\ reports net n 200 c /\ qualifies bc c)
    /\ (replaced = true ->
        bc' = with_chain bc (chain bc')
        /\ qualifies bc (chain bc')
        /\ (exists n, In n (elems (neighbors bc)) /\ reports net n 200 (chain bc'))
        /\ (forall n c, In n (elems (neighbors bc)) -> reports net n 200 c ->
              qualifies bc c -> (len c <= len (chain bc'))%nat))
    /\ (replaced = false -> bc' = bc)
    /\ ((forall n s c, In n (elems (neighbors bc)) -> reports net n s c ->
           (len c <= len (chain bc))%nat) ->
        replaced = false).
Proof.
  intros Hall.
  destruct (ResolveConflicts_scan_spec net (elems (neighbors bc)) (len (chain bc)) None Hall)
    as (m' & l' & Hscan & Hle & Hmax & Hres).
  destruct Hres as [[-> ->] | (n & Hin & Hr & Hv & Hlt & ->)].
  - exists bc, false.
    split; [unfold ResolveConflicts; cbv zeta; rewrite Hscan; reflexivity|].
    split; [|split; [discriminate|split; auto]].
    split; [discriminate|]. intros (n & c & Hin & Hr & Hlt & Hv).
    specialize (Hmax n c Hin Hr Hv). lia.
  - destruct l' as [l|]; [|cbn in Hlt; lia].
    exists (with_chain bc (Some l)), true.
    split; [unfold ResolveConflicts; cbv zeta; rewrite Hscan; reflexivity|].
    split; [|split; [|split; [discriminate|]]].
    + split; [|reflexivity]. intros _. exists n, (Some l). repeat split; auto.
    + intros _. cbn [with_chain chain]. split; [reflexivity|].
      split; [split; assumption|]. split; [exists n; auto|].
      intros n0 c0 Hin0 Hr0 [_ Hv0]. eapply Hmax; eauto.
    + intros Hshort. specialize (Hshort n 200 (Some l) Hin Hr). lia.
Qed.

(** X17: when every neighbor answers, with a chain that is empty or
    has no nil block after the first, [ResolveConflicts] returns; it
    returns true exactly when some chain reported with status 200 is
    strictly longer than the local chain and passes [ValidChain]; the
    chain it then installs is such a chain and none of them is longer,
    and nothing else changes; it returns false with the [Blockchain]
    unchanged otherwise, in particular when no reported chain is
    longer than the local one.  With a local chain of three blocks, an
    invalid chain of five and a valid chain of four, the chain of four
    is installed. *)
Theorem ResolveConflicts_adopts_longest_valid :
  (forall (net : network) (bc : Blockchain),
      all_answer net (elems (neighbors bc)) ->
      exists (bc' : Blockchain) (replaced : bool),
        ResolveConflicts net bc = Returns (bc', replaced)
        /\ (replaced = true <->
            exists n c, In n (elems (neighbors bc)) /\ reports net n 200 c /\ qualifies bc c)
        /\ (replaced = true ->
            bc' = with_chain bc (chain bc')
            /\ qualifies bc (chain bc')
            /\ (exists n, In n (elems (neighbors bc)) /\ reports net n 200 (chain bc'))
            /\ (forall n c, In n (elems (neighbors bc)) -> reports net n 200 c ->
                  qualifies bc c -> (len c <= len (chain bc'))%nat))
        /\ (replaced = false -> bc' = bc)
        /\ ((forall n s c, In n (elems (neighbors bc)) -> reports net n s c ->
               (len c <= len (chain bc))%nat) ->
            replaced = false))
  /\ (len (chain sample_local) = 3%nat
      /\ reports sample_net "127.0.0.1:5001" 200 chain5_invalid
      /\ len chain5_invalid = 5%nat
      /\ ValidChain chain5_invalid = Returns false
      /\ reports sample_net "127.0.0.1:5002" 200 chain4
      /\ len chain4 = 4%nat
      /\ ValidChain chain4 = Returns true
      /\ ResolveConflicts sample_net sample_local
         = Returns (with_chain sample_local chain4, true)).
Proof.
  split; [exact ResolveConflicts_spec|].
  vm_compute. repeat split.
Qed.

Lemma sample_net_all_answer : all_answer sample_net (elems (neighbors sample_local)).
Proof.
  intros n [<-|[<-|[]]].
  - exists 200, chain5_invalid. split; [reflexivity|]. right.
    exists (Some block0), [block1; block2; block3; block4_unmined]. reflexivity.
  - exists 200, chain4. split; [reflexivity|]. right.
    exists (Some block0), [block1; block2; block3]. reflexivity.
Defined.

(** X17 at the sample node and network. *)
Lemma ResolveConflicts_adopts_longest_valid_witness :
  all_answer sample_net (elems (neighbors sample_local))
  /\ exists (bc' : Blockchain) (replaced : bool),
       ResolveConflicts sample_net sample_local = Returns (bc', replaced)
       /\ (replaced = true <->
           exists n c, In n (elems (neighbors sample_local))
                       /\ reports sample_net n 200 c /\ qualifies sample_local c)
       /\ (replaced = true ->
           bc' = with_chain sample_local (chain bc')
           /\ qualifies sample_local (chain bc')
           /\ (exists n, In n (elems (neighbors sample_local))
                         /\ reports sample_net n 200 (chain bc'))
           /\ (forall n c, In n (elems (neighbors sample_local)) ->
                 reports sample_net n 200 c ->
                 qualifies sample_local c -> (len c <= len (chain bc'))%nat))
       /\ (replaced = false -> bc' = sample_local)
       /\ ((forall n s c, In n (elems (neighbors sample_local)) ->
              reports sample_net n s c ->
              (len c <= len (chain sample_local))%nat) ->
           replaced = false).
Proof.
  split; [exact sample_net_all_answer|].
  exact (proj1 ResolveConflicts_adopts_longest_valid sample_net sample_local
           sample_net_all_answer).
Defined.

(** A neighbor that cannot be reached stops the scan with a panic,
    wherever it stands in the list. *)
Lemma ResolveConflicts_scan_unreachable (net : network) (ns : list string) (n : string) :
  In n ns ->
  net (chain_endpoint n) = Unreachable ->
  forall state result, ResolveConflicts_scan net ns state <> Returns result.
Proof.
  induction ns as [|m ns IH]; intros Hin Hdown state result; [destruct Hin|].
  cbn [ResolveConflicts_scan].
  destruct Hin as [->|Hin].
  - unfold ResolveConflicts_visit. rewrite Hdown. destruct state. discriminate.
  - destruct (ResolveConflicts_visit state (net (chain_endpoint m))) as [state'| |];
      cbn [bind]; try discriminate.
    apply IH; assumption.
Qed.

Lemma ResolveConflicts_unreachable (net : network) (bc : Blockchain) (n : string) :
  In n (elems (neighbors bc)) ->
  net (chain_endpoint n) = Unreachable ->
  forall result, ResolveConflicts net bc <> Returns result.
Proof.
  intros Hin Hdown result. unfold ResolveConflicts. cbv zeta.
  destruct (ResolveConflicts_scan net _ _) as [state| |] eqn:Hscan; cbn [bind];
    try discriminate.
  exfalso. eapply ResolveConflicts_scan_unreachable; eauto.
Qed.

(** C5 on the code: a neighbor has reported a chain that is longer
    than the local one and passes [ValidChain], and [ResolveConflicts]
    neither installs it nor returns.  With the first neighbor out of
    reach the scan panics on the nil response before the second, who
    offers the chain of four, is asked; and with the chain of four
    already taken up from the first neighbor, a chain of five that
    ends in a nil block makes [ValidChain], and the scan with it,
    panic on the nil block. *)
Theorem ResolveConflicts_qualifying_chain_not_adopted :
  (len (chain sample_local) = 3%nat
   /\ In "127.0.0.1:5002" (elems (neighbors sample_local))
   /\ reports sample_net_first_down "127.0.0.1:5002" 200 chain4
   /\ qualifies sample_local chain4
   /\ sample_net_first_down (chain_endpoint "127.0.0.1:5001") = Unreachable
   /\ ResolveConflicts sample_net_first_down sample_local
      = Panics "invalid memory address or nil pointer dereference")
  /\ (In "127.0.0.1:5001" (elems (neighbors sample_local))
      /\ reports sample_net_nil "127.0.0.1:5001" 200 chain4
      /\ qualifies sample_local chain4
      /\ reports sample_net_nil "127.0.0.1:5002" 200 chain5_nil
      /\ ValidChain chain5_nil = Panics "invalid memory address or nil pointer dereference"
      /\ ResolveConflicts sample_net_nil sample_local
         = Panics "invalid memory address or nil pointer dereference").
Proof.
  assert (Hq : qualifies sample_local chain4).
  { split; [vm_compute; apply Nat.leb_le; reflexivity | vm_compute; reflexivity]. }
  split.
  - split; [reflexivity|]. split; [right; left; reflexivity|].
    split; [reflexivity|]. split; [exact Hq|]. split; [reflexivity|].
    vm_compute. reflexivity.
  - split; [left; reflexivity|]. split; [reflexivity|]. split; [exact Hq|].
    split; [reflexivity|]. split; vm_compute; reflexivity.
Qed.

(** C6 on the code: the second neighbor cannot be reached and
    [ResolveConflicts] panics on the nil response, although the first
    neighbor had delivered a longer valid chain; the scan stops there
    and nothing is returned. *)
Theorem ResolveConflicts_unreachable_neighbor_panics :
  sample_net_down (chain_endpoint "127.0.0.1:5001") = Replied 200 (Returns chain4)
  /\ qualifies sample_local chain4
  /\ sample_net_down (chain_endpoint "127.0.0.1:5002") = Unreachable
  /\ ResolveConflicts sample_net_down sample_local
     = Panics "invalid memory address or nil pointer dereference".
Proof. vm_compute. repeat split. apply Nat.leb_le. reflexivity. Qed.

(** ** The chain invariant *)

Lemma bytes_eqb_eq (a b : list Z) : bytes_eqb a b = true -> a = b.
Proof.
  revert b. induction a as [|x a IH]; intros [|y b] H; cbn in H; try discriminate.
  - reflexivity.
  - apply andb_prop in H. destruct H as [Hxy Hab].
    apply Z.eqb_eq in Hxy. rewrite Hxy, (IH b Hab). reflexivity.
Qed.

Lemma links_every_link (P : ptr Block -> Block -> Prop) (rest : list (ptr Block)) :
  forall pre, links P pre rest -> every_link P (pre :: rest).
Proof.
  induction rest as [|[b|] rest IH]; intros pre H i p cur Hi Hsi.
  - destruct i; discriminate Hsi.
  - destruct H as [HP Hrest]. destruct i as [|i].
    + cbn in Hi, Hsi. injection Hi as <-. injection Hsi as <-.
      exists b. split; [reflexivity | exact HP].
    + exact (IH (Some b) Hrest i p cur Hi Hsi).
  - destruct H.
Qed.

Lemma well_linked_every_link (P : ptr Block -> Block -> Prop) (c : list (ptr Block)) :
  well_linked P c -> every_link P c.
Proof.
  destruct c as [|pre rest].
  - intros _ i p cur Hi. destruct i; discriminate Hi.
  - apply links_every_link.
Qed.

Lemma links_snoc (P : ptr Block -> Block -> Prop) (last : ptr Block) (b : Block)
    (front : list (ptr Block)) :
  forall pre,
    links P pre (front ++ [last]) ->
    P last b ->
    links P pre (front ++ [last; Some b]).
Proof.
  induction front as [|[x|] front IH]; intros pre H Hb; cbn [app links] in *.
  - destruct last as [l|]; [|destruct H]. destruct H as [Hl _]. auto.
  - destruct H as [Hx Hrest]. split; [exact Hx|]. apply IH; assumption.
  - destruct H.
Qed.

Lemma well_linked_snoc (P : ptr Block -> Block -> Prop) (last : ptr Block) (b : Block)
    (front : list (ptr Block)) :
  well_linked P (front ++ [last]) ->
  P last b ->
  well_linked P ((front ++ [last]) ++ [Some b]).
Proof.
  rewrite <- app_assoc. cbn [app].
  destruct front as [|pre front]; cbn [app well_linked].
  - intros _ Hb. cbn. auto.
  - apply links_snoc.
Qed.

Lemma ValidChain_walk_links (rest : list (ptr Block)) :
  forall pre, ValidChain_walk pre rest = Returns true -> links valid_link pre rest.
Proof.
  induction rest as [|[b|] rest IH]; intros pre H; cbn [ValidChain_walk links] in *.
  - exact I.
  - destruct (bytes_eqb (previousHash b) (Hash pre)) eqn:Heq; cbn [negb] in H;
      [|discriminate].
    destruct (ValidProof (nonce b) (previousHash b) (transactions b) MiningDifficulty)
      as [[|]| |] eqn:Hv; cbn [bind negb] in H; try discriminate.
    split; [split|].
    + apply bytes_eqb_eq. exact Heq.
    + apply ValidProof_mined. exact Hv.
    + apply IH. exact H.
  - discriminate.
Qed.

Lemma ValidChain_well_linked (c : slice (ptr Block)) :
  ValidChain c = Returns true -> well_linked valid_link (elems c).
Proof.
  unfold ValidChain. destruct (elems c) as [|pre rest]; [discriminate|].
  apply ValidChain_walk_links.
Qed.

Lemma ResolveConflicts_scan_valid (net : network) (ns : list string) :
  forall state state',
    ResolveConflicts_scan net ns state = Returns state' ->
    (snd state = None \/ ValidChain (snd state) = Returns true) ->
    snd state' = None \/ ValidChain (snd state') = Returns true.
Proof.
  induction ns as [|n ns IH]; intros state state' H Hst; cbn [ResolveConflicts_scan] in H.
  - injection H as <-. exact Hst.
  - destruct (ResolveConflicts_visit state (net (chain_endpoint n))) as [st1| |] eqn:Hv;
      cbn [bind] in H; try discriminate.
    apply (IH st1 state' H).
    unfold ResolveConflicts_visit in Hv. destruct state as [m l].
    destruct (net (chain_endpoint n)) as [|s d]; [discriminate|].
    destruct (s =? 200); [|injection Hv as <-; exact Hst].
    destruct d as [c| |]; cbn [bind] in Hv; try discriminate.
    destruct (m <? len c)%nat; [|injection Hv as <-; exact Hst].
    destruct (ValidChain c) as [[|]| |] eqn:Hc; cbn [bind] in Hv; try discriminate;
      injection Hv as <-; [right; exact Hc | exact Hst].
Qed.

Section Invariant.

Context {lib : Library}.

Lemma AddTransaction_chain sender recipient value senderPublicKey s bc bc' ok :
  AddTransaction sender recipient value senderPublicKey s bc = Returns (bc', ok) ->
  chain bc' = chain bc.
Proof.
  unfold AddTransaction. destruct (String.eqb sender MiningSender).
  - intros [= <- _]. reflexivity.
  - destruct (VerityTransactionSignature _ _ _) as [[|]| |]; cbn [bind];
      intros H; try discriminate; injection H as <- _; reflexivity.
Qed.

Lemma Mining_false_inv (fuel : nat) (now : Z) (bc bc' : Blockchain) :
  Mining fuel now bc = Returns (bc', false) -> bc' = bc.
Proof.
  unfold Mining. destruct (len (transactionPool bc) =? 0)%nat.
  - intros [= <-]. reflexivity.
  - destruct (AddTransaction _ _ _ _ _ _) as [r| |]; cbn [bind]; try discriminate.
    destruct (ProofOfWork fuel (fst r)) as [n| |]; cbn [bind]; try discriminate.
    destruct (LastBlock (fst r)) as [l| |]; cbn [bind]; discriminate.
Qed.

Lemma step_well_linked (bc bc' : Blockchain) :
  step bc bc' ->
  well_linked valid_link (elems (chain bc)) ->
  well_linked valid_link (elems (chain bc')).
Proof.
  intros Hstep Hinv. destruct Hstep as [? ? ? ? ? bc' ok H| |fuel now bc' ok H|net bc' ok H|ns].
  - rewrite (AddTransaction_chain _ _ _ _ _ _ _ _ H). exact Hinv.
  - exact Hinv.
  - destruct ok.
    + apply Mining_true_inv in H. destruct H as (last & nonce & Hlast & _ & Hv & ->).
      cbn [chain elems]. apply LastBlock_last in Hlast. destruct Hlast as [front Hfront].
      rewrite Hfront in *. apply well_linked_snoc; [exact Hinv|].
      split; [reflexivity|]. apply ValidProof_mined. exact Hv.
    + apply Mining_false_inv in H. subst bc'. exact Hinv.
  - unfold ResolveConflicts in H. cbv zeta in H.
    destruct (ResolveConflicts_scan net _ _) as [state| |] eqn:Hscan; cbn [bind] in H;
      try discriminate.
    apply ResolveConflicts_scan_valid in Hscan; [|left; reflexivity].
    destruct (snd state) as [l|] eqn:Hsnd.
    + injection H as <- _. cbn [with_chain chain].
      destruct Hscan as [Hnone|Hvalid]; [discriminate|].
      apply ValidChain_well_linked. exact Hvalid.
    + injection H as <- _. exact Hinv.
  - exact Hinv.
Qed.

Lemma reachable_well_linked (bc : Blockchain) :
  reachable bc -> well_linked valid_link (elems (chain bc)).
Proof.
  induction 1 as [addr port now | bc bc' _ IH Hstep].
  - exact I.
  - exact (step_well_linked bc bc' Hstep IH).
Qed.

(** C2, as the code has it: in every reachable ledger each block after
    the first is linked to its predecessor by [previousHash], and the
    hash of its candidate block, the block with the timestamp set to
    0, starts with [MiningDifficulty] zeros. *)
Theorem reachable_chain_linked_and_candidate_mined (bc : Blockchain) :
  reachable bc ->
  every_link valid_link (elems (chain bc)).
Proof.
  intros H. apply well_linked_every_link. exact (reachable_well_linked bc H).
Qed.

End Invariant.

Lemma sample_mined_reachable : reachable (lib := sample_lib) sample_mined.
Proof.
  apply (reachable_step sample_pending).
  - apply (reachable_step sample_new).
    + exact (reachable_new miner 5000 t0).
    + apply (step_AddTransaction _ MiningSender "alice" MiningReward None None _ true).
      vm_compute. reflexivity.
  - apply (step_Mining _ 2%nat t1 _ true). vm_compute. reflexivity.
Defined.

(** C2 at the sample node after its first block was mined. *)
Lemma reachable_chain_linked_and_candidate_mined_witness :
  reachable (lib := sample_lib) sample_mined
  /\ every_link valid_link (elems (chain sample_mined)).
Proof.
  split; [exact sample_mined_reachable|].
  exact (reachable_chain_linked_and_candidate_mined (lib := sample_lib)
           sample_mined sample_mined_reachable).
Defined.

(** C2 as stated fails at the sample node: the block mined at [t1] with
    nonce 1 is linked to the genesis block, but its identity hash,
    which covers the timestamp, starts with [de4]. *)
Lemma reachable_chain_identity_hash_not_mined :
  reachable (lib := sample_lib) sample_mined
  /\ nth_error (elems (chain sample_mined)) 1 = Some (Some block1)
  /\ hex (Hash (Some block1))
     = "de46720eaad2d34e26e8fc1ca5924e13e4df9846e9d27f7a7fea4a067f5ea1f8"
  /\ ~ every_link claimed_link (elems (chain sample_mined)).
Proof.
  split; [exact sample_mined_reachable|].
  split; [reflexivity|]. split; [vm_compute; reflexivity|].
  intros H.
  destruct (H 0%nat (Some block0) (Some block1) eq_refl eq_refl) as (b & Hb & _ & Hz).
  injection Hb as <-. unfold identity_hash_mined in Hz.
  apply substring_zeros in Hz. destruct Hz as [Hz _].
  vm_compute in Hz. discriminate Hz.
Qed.

(** ** Block JSON: writing and reading *)


Section Capacity.

Context {lib : Library}.

Lemma hex_DecodeString_cap (s : string) :
  cap (hex_DecodeString s)
  = (List.length (hex_Decode s) + List.length (hex_spare s))%nat.
Proof.
  unfold cap, hex_DecodeString. cbn [backing]. apply length_app.
Qed.



Lemma reslice_long (ph : byte_slice) :
  (32 <= cap ph)%nat ->
  reslice ph 32 = Returns (firstn 32 (backing ph)).
Proof.
  intros H. unfold reslice. apply Nat.ltb_ge in H. rewrite H. reflexivity.
Qed.

Lemma reslice_decoded (s : string) :
  (32 <= List.length (hex_Decode s))%nat ->
  reslice (hex_DecodeString s) 32 = Returns (firstn 32 (hex_Decode s)).
Proof.
  intros H. rewrite reslice_long by (rewrite hex_DecodeString_cap; lia).
  unfold hex_DecodeString. cbn [backing]. rewrite firstn_app.
  replace (32 - List.length (hex_Decode s))%nat with 0%nat by lia.
  rewrite firstn_0, app_nil_r. reflexivity.
Qed.

End Capacity.

Lemma ParseInt_itoa (z : Z) : in_int64 z = true -> ParseInt (itoa z) = Some z.
Proof.
  intros Hz. unfold ParseInt, itoa.
  rewrite NilZero.isi.
  - cbn [option_map]. rewrite DecimalZ.of_to, Hz. reflexivity.
  - destruct z; cbn; try discriminate.
    intros [= H]. exact (DecimalPos.Unsigned.to_uint_nonnil _ H).
  - destruct z; cbn; try discriminate.
    intros [= H]. exact (DecimalPos.Unsigned.to_uint_nonnil _ H).
Qed.

Section BlockJSON.

Context {lib : Library}.













End BlockJSON.








(** * Further properties *)

(** ** When [ValidProof] panics *)

(** X1: [ValidProof] panics exactly for a negative difficulty and for one
    above 64, the number of characters of the hash; for every other
    difficulty it returns. *)
Theorem ValidProof_panics_iff (nonce : Z) (ph : list Z)
    (txs : slice (ptr Transaction)) (D : Z) :
  ((exists msg, ValidProof nonce ph txs D = Panics msg) <-> (D < 0 \/ 64 < D))
  /\ ((exists ok, ValidProof nonce ph txs D = Returns ok) <-> 0 <= D <= 64).
Proof.
  unfold ValidProof. rewrite Hash_hex_length.
  destruct (Z.ltb_spec D 0) as [Hneg|Hpos].
  - split; split.
    + intros _. left. exact Hneg.
    + intros _. eexists. reflexivity.
    + intros [ok H]. discriminate H.
    + lia.
  - destruct (Z.ltb_spec (Z.of_nat 64) D) as [Hbig|Hfit].
    + split; split.
      * intros _. right. lia.
      * intros _. eexists. reflexivity.
      * intros [ok H]. discriminate H.
      * lia.
    + split; split.
      * intros [msg H]. discriminate H.
      * lia.
      * intros _. lia.
      * intros _. eexists. reflexivity.
Qed.

(** ** What [ValidChain] decides *)

Lemma bytes_eqb_refl (a : list Z) : bytes_eqb a a = true.
Proof.
  induction a as [|x a IH]; [reflexivity|].
  cbn [bytes_eqb]. rewrite Z.eqb_refl, IH. reflexivity.
Qed.

Lemma links_ValidChain_walk (rest : list (ptr Block)) :
  forall pre, links valid_link pre rest -> ValidChain_walk pre rest = Returns true.
Proof.
  induction rest as [|[b|] rest IH]; intros pre H; cbn [ValidChain_walk links] in *.
  - reflexivity.
  - destruct H as [[Hlink Hmined] Hrest]. unfold linked_to in Hlink.
    rewrite Hlink, bytes_eqb_refl. cbn [negb].
    apply ValidProof_mined in Hmined. rewrite <- Hlink, Hmined. cbn [bind negb].
    apply IH. exact Hrest.
  - destruct H.
Qed.

Lemma every_link_tail (P : ptr Block -> Block -> Prop) (x : ptr Block)
    (c : list (ptr Block)) :
  every_link P (x :: c) -> every_link P c.
Proof.
  intros H i pre cur Hi Hsi. exact (H (S i) pre cur Hi Hsi).
Qed.

Lemma every_link_links (P : ptr Block -> Block -> Prop) (rest : list (ptr Block)) :
  forall pre, every_link P (pre :: rest) -> links P pre rest.
Proof.
  induction rest as [|cur rest IH]; intros pre H; [exact I|].
  destruct (H 0%nat pre cur eq_refl eq_refl) as (b & -> & HP).
  cbn [links]. split; [exact HP|].
  apply IH. apply (every_link_tail P pre). exact H.
Qed.

(** X2: [ValidChain] returns true exactly on a chain that is not empty and
    in which every block after the first is a block, carries the hash
    of its predecessor, and solves the puzzle with its candidate. *)
Theorem ValidChain_true_iff (c : slice (ptr Block)) :
  ValidChain c = Returns true
  <-> elems c <> [] /\ every_link valid_link (elems c).
Proof.
  unfold ValidChain. destruct (elems c) as [|pre rest].
  - split; [discriminate|]. intros [H _]. contradiction.
  - split.
    + intros H. split; [discriminate|].
      apply links_every_link, ValidChain_walk_links. exact H.
    + intros [_ H]. apply links_ValidChain_walk, every_link_links. exact H.
Qed.

(** Blocks of a valid walk before an altered one are passed as before. *)
Lemma ValidChain_walk_tampered (b : Block) (ph' : list Z) (back : list (ptr Block))
    (front : list (ptr Block)) :
  forall pre,
    ph' <> previousHash b ->
    ValidChain_walk pre (front ++ Some b :: back) = Returns true ->
    ValidChain_walk pre
      (front ++ Some (mkBlock (timestamp b) (nonce b) ph' (transactions b)) :: back)
    = Returns false.
Proof.
  induction front as [|[x|] front IH]; intros pre Hne H; cbn [app ValidChain_walk] in *.
  - destruct (bytes_eqb (previousHash b) (Hash pre)) eqn:Heq; cbn [negb] in H;
      [|discriminate].
    apply bytes_eqb_eq in Heq. cbn [previousHash].
    destruct (bytes_eqb ph' (Hash pre)) eqn:Heq'; [|reflexivity].
    apply bytes_eqb_eq in Heq'. congruence.
  - destruct (negb (bytes_eqb (previousHash x) (Hash pre))); [discriminate|].
    destruct (ValidProof (nonce x) (previousHash x) (transactions x) MiningDifficulty)
      as [[|]| |]; cbn [bind negb] in *; try discriminate.
    apply IH; assumption.
  - discriminate.
Qed.

(** X3: altering the [previousHash] of any block but the first of a chain
    that [ValidChain] accepts makes [ValidChain] return false. *)
Theorem ValidChain_rejects_altered_previousHash (first : ptr Block)
    (front back : list (ptr Block)) (b : Block) (ph' : list Z) :
  ValidChain (Some (first :: front ++ Some b :: back)) = Returns true ->
  ph' <> previousHash b ->
  ValidChain (Some (first :: front
                      ++ Some (mkBlock (timestamp b) (nonce b) ph' (transactions b)) :: back))
  = Returns false.
Proof.
  unfold ValidChain. cbn [elems]. intros H Hne.
  apply ValidChain_walk_tampered; assumption.
Qed.

(** X3, the chain of four with the hash link of its third block altered. *)
Lemma ValidChain_rejects_altered_previousHash_witness :
  ValidChain (Some (Some block0 :: [Some block1] ++ Some block2 :: [Some block3]))
  = Returns true
  /\ hash0 <> previousHash block2
  /\ ValidChain (Some (Some block0 :: [Some block1]
                         ++ Some (mkBlock (timestamp block2) (nonce block2) hash0
                                          (transactions block2)) :: [Some block3]))
     = Returns false.
Proof.
  assert (H : ValidChain (Some (Some block0 :: [Some block1] ++ Some block2 :: [Some block3]))
              = Returns true) by (vm_compute; reflexivity).
  assert (Hne : hash0 <> previousHash block2) by (vm_compute; discriminate).
  split; [exact H|]. split; [exact Hne|].
  exact (ValidChain_rejects_altered_previousHash (Some block0) [Some block1]
           [Some block3] block2 hash0 H Hne).
Defined.

(** ** What every reachable ledger keeps *)

Lemma links_last (P : ptr Block -> Block -> Prop) (rest : list (ptr Block)) :
  forall pre, links P pre rest -> rest <> [] ->
              exists front b, rest = front ++ [Some b].
Proof.
  induction rest as [|[x|] rest IH]; intros pre H Hne; cbn [links] in H.
  - contradiction.
  - destruct rest as [|y rest].
    + exists [], x. reflexivity.
    + destruct H as [_ H]. destruct (IH (Some x) H ltac:(discriminate)) as (front & b & Hb).
      exists (Some x :: front), b. rewrite Hb. reflexivity.
  - destruct H.
Qed.

(** What the scan hands back: the state it started with, or a chain that
    is longer than the starting length and passes [ValidChain]. *)
Lemma ResolveConflicts_scan_longer (net : network) (ns : list string) :
  forall state state',
    ResolveConflicts_scan net ns state = Returns state' ->
    (fst state <= fst state')%nat
    /\ (snd state' = snd state
        \/ ((fst state < len (snd state'))%nat
            /\ ValidChain (snd state') = Returns true)).
Proof.
  induction ns as [|n ns IH]; intros state state' H; cbn [ResolveConflicts_scan] in H.
  - injection H as <-. split; [lia | left; reflexivity].
  - destruct (ResolveConflicts_visit state (net (chain_endpoint n))) as [st1| |] eqn:Hv;
      cbn [bind] in H; try discriminate.
    destruct (IH st1 state' H) as [Hle Hres].
    assert (Hst1 : (fst state <= fst st1)%nat
                   /\ (st1 = state
                       \/ ((fst state < len (snd st1))%nat
                           /\ ValidChain (snd st1) = Returns true
                           /\ fst st1 = len (snd st1)))).
    { unfold ResolveConflicts_visit in Hv. destruct state as [m l].
      destruct (net (chain_endpoint n)) as [|s d]; [discriminate|].
      destruct (s =? 200); [|injection Hv as <-; split; [lia|left; reflexivity]].
      destruct d as [c| |]; cbn [bind] in Hv; try discriminate.
      destruct (Nat.ltb_spec m (len c)) as [Hlt|Hge];
        [|injection Hv as <-; split; [lia|left; reflexivity]].
      destruct (ValidChain c) as [[|]| |] eqn:Hc; cbn [bind] in Hv; try discriminate;
        injection Hv as <-; cbn [fst snd].
      - split; [lia|]. right. auto.
      - split; [lia|]. left. reflexivity. }
    destruct Hst1 as [Hle1 Hst1]. split; [lia|].
    destruct Hst1 as [->|(Hlt1 & Hv1 & Hfst1)]; [exact Hres|].
    destruct Hres as [->|[Hlt Hvalid]].
    + right. split; assumption.
    + right. split; [lia | exact Hvalid].
Qed.

(** The chain [ResolveConflicts] leaves behind: the local one, or one
    that is longer and passes [ValidChain]. *)
Lemma ResolveConflicts_chain (net : network) (bc bc' : Blockchain) (ok : bool) :
  ResolveConflicts net bc = Returns (bc', ok) ->
  chain bc' = chain bc
  \/ ((len (chain bc) < len (chain bc'))%nat /\ ValidChain (chain bc') = Returns true).
Proof.
  unfold ResolveConflicts. cbv zeta. intros H.
  destruct (ResolveConflicts_scan net _ _) as [state| |] eqn:Hscan; cbn [bind] in H;
    try discriminate.
  apply ResolveConflicts_scan_longer in Hscan. cbn [fst snd] in Hscan.
  destruct Hscan as [_ Hscan].
  destruct (snd state) as [l|] eqn:Hsnd; injection H as <- _; cbn [with_chain chain].
  - destruct Hscan as [Hnone|Hlonger]; [discriminate|]. right. exact Hlonger.
  - left. reflexivity.
Qed.

Section Ledgers.

Context {lib : Library}.

Lemma step_ends_in_block (bc bc' : Blockchain) :
  step bc bc' -> ends_in_block bc -> ends_in_block bc'.
Proof.
  intros Hstep Hinv.
  destruct Hstep as [? ? ? ? ? bc' ok H| |fuel now bc' ok H|net bc' ok H|ns].
  - unfold ends_in_block. rewrite (AddTransaction_chain _ _ _ _ _ _ _ _ H). exact Hinv.
  - exact Hinv.
  - destruct ok.
    + apply Mining_true_inv in H. destruct H as (last & nonce & _ & _ & _ & ->).
      eexists _, _. cbn [chain elems]. reflexivity.
    + apply Mining_false_inv in H. subst bc'. exact Hinv.
  - apply ResolveConflicts_chain in H. destruct H as [Heq|[Hlen Hvalid]].
    + unfold ends_in_block. rewrite Heq. exact Hinv.
    + destruct Hinv as (front & b & Hb).
      apply ValidChain_well_linked in Hvalid.
      unfold len in Hlen. rewrite Hb, length_app in Hlen. cbn [List.length] in Hlen.
      unfold ends_in_block.
      destruct (elems (chain bc')) as [|pre rest]; [cbn in Hlen; lia|].
      cbn [well_linked] in Hvalid.
      destruct (links_last valid_link rest pre Hvalid) as (front' & b' & Hb').
      * intros ->. cbn in Hlen. lia.
      * exists (pre :: front'), b'. rewrite Hb'. reflexivity.
  - exact Hinv.
Qed.

Lemma reachable_ends_in_block (bc : Blockchain) : reachable bc -> ends_in_block bc.
Proof.
  induction 1 as [addr port now | bc bc' _ IH Hstep].
  - eexists [], _. reflexivity.
  - exact (step_ends_in_block bc bc' Hstep IH).
Qed.

(** X4: on every reachable ledger [LastBlock] returns, and what it returns
    is a block, never nil: the chain is never empty. *)
Theorem reachable_LastBlock_returns_block (bc : Blockchain) :
  reachable bc -> exists b : Block, LastBlock bc = Returns (Some b).
Proof.
  intros H. destruct (reachable_ends_in_block bc H) as (front & b & Hb).
  exists b. unfold LastBlock. rewrite Hb, rev_app_distr. reflexivity.
Qed.

(** X5: the chain of every reachable ledger passes [ValidChain]. *)
Theorem reachable_chain_passes_ValidChain (bc : Blockchain) :
  reachable bc -> ValidChain (chain bc) = Returns true.
Proof.
  intros H. pose proof (reachable_well_linked bc H) as Hlinked.
  destruct (reachable_ends_in_block bc H) as (front & b & Hb).
  unfold ValidChain. destruct (elems (chain bc)) as [|pre rest].
  - destruct front; discriminate Hb.
  - apply links_ValidChain_walk. exact Hlinked.
Qed.

(** X6: no completed call makes the chain shorter. *)
Theorem step_chain_never_shorter (bc bc' : Blockchain) :
  step bc bc' -> (len (chain bc) <= len (chain bc'))%nat.
Proof.
  intros Hstep.
  destruct Hstep as [? ? ? ? ? bc' ok H| |fuel now bc' ok H|net bc' ok H|ns].
  - rewrite (AddTransaction_chain _ _ _ _ _ _ _ _ H). lia.
  - cbn. lia.
  - destruct ok.
    + apply Mining_true_inv in H. destruct H as (last & nonce & _ & _ & _ & ->).
      unfold len. cbn [chain elems]. rewrite length_app. lia.
    + apply Mining_false_inv in H. subst bc'. lia.
  - apply ResolveConflicts_chain in H. destruct H as [->|[Hlen _]]; lia.
  - cbn. lia.
Qed.




End Ledgers.

Lemma sample_mining_step : step (lib := sample_lib) sample_pending sample_mined.
Proof.
  apply (step_Mining _ 2%nat t1 _ true). vm_compute. reflexivity.
Defined.

(** X4, the sample node after its first block. *)
Lemma reachable_LastBlock_returns_block_witness :
  reachable (lib := sample_lib) sample_mined
  /\ exists b : Block, LastBlock sample_mined = Returns (Some b).
Proof.
  split; [exact sample_mined_reachable|].
  exact (reachable_LastBlock_returns_block (lib := sample_lib) sample_mined
           sample_mined_reachable).
Defined.

(** X5 at the sample node. *)
Lemma reachable_chain_passes_ValidChain_witness :
  reachable (lib := sample_lib) sample_mined
  /\ ValidChain (chain sample_mined) = Returns true.
Proof.
  split; [exact sample_mined_reachable|].
  exact (reachable_chain_passes_ValidChain (lib := sample_lib) sample_mined
           sample_mined_reachable).
Defined.

(** X6 at the sample node. *)
Lemma step_chain_never_shorter_witness :
  step (lib := sample_lib) sample_pending sample_mined
  /\ (len (chain sample_pending) <= len (chain sample_mined))%nat.
Proof.
  split; [exact sample_mining_step|].
  exact (step_chain_never_shorter (lib := sample_lib) sample_pending sample_mined
           sample_mining_step).
Defined.


(** ** The nonce [Mining] settles on *)

(** A search that returns before the nonce can wrap around has tested
    and rejected every nonce below the one it returns. *)
Lemma ProofOfWork_search_returns_least (ph : list Z) (txs : slice (ptr Transaction))
    (fuel : nat) :
  forall start n,
    0 <= start ->
    start + Z.of_nat fuel <= 2 ^ 63 ->
    ProofOfWork_search fuel start ph txs = Returns n ->
    start <= n
    /\ (forall m, start <= m < n -> ValidProof m ph txs MiningDifficulty = Returns false).
Proof.
  induction fuel as [|fuel IH]; intros start n Hstart Hmax H; [discriminate|].
  cbn [ProofOfWork_search] in H.
  destruct (ValidProof start ph txs MiningDifficulty) as [[|]| |] eqn:Hs;
    cbn [bind] in H; try discriminate.
  - injection H as <-. split; [lia|]. intros m Hm. lia.
  - destruct fuel as [|fuel']; [discriminate|].
    rewrite wrap64_in_range in H by (unfold int64_min, int64_max; lia).
    destruct (IH (start + 1) n ltac:(lia) ltac:(lia) H) as [Hn Hleast].
    split; [lia|]. intros m Hm.
    destruct (Z.eq_dec m start) as [->|Hne]; [exact Hs|]. apply Hleast. lia.
Qed.

Section MiningNonce.

Context {lib : Library}.

Lemma Mining_true_search (fuel : nat) (now : Z) (bc bc' : Blockchain) :
  Mining fuel now bc = Returns (bc', true) ->
  exists (last : ptr Block) (nonce : Z),
    let reward := NewTransaction MiningSender (blockchainAddress bc) MiningReward in
    let txs := Some (elems (transactionPool bc) ++ [Some reward]) in
    LastBlock bc = Returns last
    /\ ProofOfWork_search fuel 0 (Hash last) txs = Returns nonce
    /\ bc' = mkBlockchain (Some [])
               (Some (elems (chain bc) ++ [Some (mkBlock now nonce (Hash last) txs)]))
               (blockchainAddress bc) (port bc) (neighbors bc).
Proof.
  unfold Mining. destruct (Nat.eqb_spec (len (transactionPool bc)) 0) as [|Hne];
    [discriminate|].
  unfold AddTransaction. rewrite String.eqb_refl. cbn [bind fst].
  unfold ProofOfWork.
  destruct (CopyTransactionPool _) as [txs| |] eqn:Hcopy; cbn [bind]; try discriminate.
  apply CopyTransactionPool_same in Hcopy. cbn in Hcopy.
  unfold LastBlock at 1 2. cbn [with_pool chain].
  destruct (rev (elems (chain bc))) as [|last r] eqn:Hrev; cbn [bind]; try discriminate.
  destruct (ProofOfWork_search fuel 0 (Hash last) txs) as [nonce| |] eqn:Hpow;
    cbn [bind]; try discriminate.
  intros [= <-]. exists last, nonce. cbn zeta. subst txs.
  repeat split.
  - unfold LastBlock. rewrite Hrev. reflexivity.
  - exact Hpow.
Qed.

(** X8: the block [Mining] appends carries the smallest non-negative nonce
    that solves the puzzle for its transactions and the hash of the
    block before it, as long as the search made no more than 2^63
    tests. *)
Theorem Mining_appends_least_nonce (fuel : nat) (now : Z) (bc bc' : Blockchain) :
  Mining fuel now bc = Returns (bc', true) ->
  Z.of_nat fuel <= 2 ^ 63 ->
  exists (last : ptr Block) (b : Block),
    LastBlock bc = Returns last
    /\ LastBlock bc' = Returns (Some b)
    /\ previousHash b = Hash last
    /\ 0 <= nonce b
    /\ ValidProof (nonce b) (Hash last) (transactions b) MiningDifficulty = Returns true
    /\ (forall m, 0 <= m < nonce b ->
          ValidProof m (Hash last) (transactions b) MiningDifficulty = Returns false).
Proof.
  intros H Hfuel. apply Mining_true_search in H.
  destruct H as (last & n & Hlast & Hsearch & ->).
  eexists last, _. split; [exact Hlast|]. split.
  - unfold LastBlock. cbn [chain elems]. rewrite rev_app_distr. reflexivity.
  - cbn [previousHash nonce transactions]. split; [reflexivity|].
    pose proof (ProofOfWork_search_valid _ _ _ _ _ Hsearch) as Hvalid.
    assert (Hmax : 0 + Z.of_nat fuel <= 2 ^ 63) by (rewrite Z.add_0_l; exact Hfuel).
    destruct (ProofOfWork_search_returns_least _ _ _ 0 n (Z.le_refl 0) Hmax Hsearch)
      as [Hn Hleast].
    split; [exact Hn|]. split; [exact Hvalid | exact Hleast].
Qed.

(** X9: from a new ledger, one accepted transaction and one successful
    [Mining] give a chain of two blocks, the second linked to the
    first and holding that transaction and the reward; [Mining] once
    more returns false and changes nothing. *)
Theorem new_add_mine_then_nothing_to_mine
    (blockchainAddress sender recipient : string) (port t_new t_mine : Z) (value : float32)
    (senderPublicKey : ptr ecdsa.PublicKey) (s : ptr utils.Signature)
    (fuel : nat) (bc1 bc2 : Blockchain) :
  AddTransaction sender recipient value senderPublicKey s
    (NewBlockchain blockchainAddress port t_new) = Returns (bc1, true) ->
  Mining fuel t_mine bc1 = Returns (bc2, true) ->
  len (chain (NewBlockchain blockchainAddress port t_new)) = 1%nat
  /\ (exists genesis b : Block,
        chain bc2 = Some [Some genesis; Some b]
        /\ transactions genesis = None
        /\ previousHash b = Hash (Some genesis)
        /\ transactions b
           = Some [ Some (NewTransaction sender recipient value);
                    Some (NewTransaction MiningSender blockchainAddress MiningReward) ])
  /\ (forall fuel' t_again, Mining fuel' t_again bc2 = Returns (bc2, false)).
Proof.
  intros Hadd Hmine. split; [reflexivity|].
  assert (Hbc1 : bc1 = with_pool (NewBlockchain blockchainAddress port t_new)
                         (Some [Some (NewTransaction sender recipient value)])).
  { unfold AddTransaction in Hadd. destruct (String.eqb sender MiningSender).
    - injection Hadd as <-. reflexivity.
    - destruct (VerityTransactionSignature _ _ _) as [[|]| |]; cbn [bind] in Hadd;
        try discriminate. injection Hadd as <-. reflexivity. }
  subst bc1. apply Mining_true_inv in Hmine.
  destruct Hmine as (last & n & Hlast & _ & _ & ->).
  unfold LastBlock in Hlast. cbn in Hlast. injection Hlast as <-.
  split.
  - eexists _, _. cbn. split; [reflexivity|]. repeat split.
  - intros fuel' t_again. reflexivity.
Qed.

End MiningNonce.

(** X8, at the sample node. *)
Lemma Mining_appends_least_nonce_witness :
  Mining (lib := sample_lib) 2 t1 sample_pending = Returns (sample_mined, true)
  /\ Z.of_nat 2 <= 2 ^ 63
  /\ exists (last : ptr Block) (b : Block),
       LastBlock sample_pending = Returns last
       /\ LastBlock sample_mined = Returns (Some b)
       /\ previousHash b = Hash last
       /\ 0 <= nonce b
       /\ ValidProof (nonce b) (Hash last) (transactions b) MiningDifficulty = Returns true
       /\ (forall m, 0 <= m < nonce b ->
             ValidProof m (Hash last) (transactions b) MiningDifficulty = Returns false).
Proof.
  assert (H : Mining (lib := sample_lib) 2 t1 sample_pending = Returns (sample_mined, true))
    by (vm_compute; reflexivity).
  assert (Hfuel : Z.of_nat 2 <= 2 ^ 63) by (vm_compute; discriminate).
  split; [exact H|]. split; [exact Hfuel|].
  exact (Mining_appends_least_nonce (lib := sample_lib) 2 t1 sample_pending sample_mined
           H Hfuel).
Defined.

(** X9 at the sample node. *)
Lemma new_add_mine_then_nothing_to_mine_witness :
  AddTransaction (lib := sample_lib) MiningSender "alice" MiningReward None None
    (NewBlockchain miner 5000 t0) = Returns (sample_pending, true)
  /\ Mining (lib := sample_lib) 2 t1 sample_pending = Returns (sample_mined, true)
  /\ len (chain (NewBlockchain miner 5000 t0)) = 1%nat
  /\ (exists genesis b : Block,
        chain sample_mined = Some [Some genesis; Some b]
        /\ transactions genesis = None
        /\ previousHash b = Hash (Some genesis)
        /\ transactions b
           = Some [ Some (NewTransaction MiningSender "alice" MiningReward);
                    Some (NewTransaction MiningSender miner MiningReward) ])
  /\ (forall fuel' t_again,
        Mining (lib := sample_lib) fuel' t_again sample_mined = Returns (sample_mined, false)).
Proof.
  assert (Hadd : AddTransaction (lib := sample_lib) MiningSender "alice" MiningReward
                   None None (NewBlockchain miner 5000 t0) = Returns (sample_pending, true))
    by (vm_compute; reflexivity).
  assert (H : Mining (lib := sample_lib) 2 t1 sample_pending = Returns (sample_mined, true))
    by (vm_compute; reflexivity).
  split; [exact Hadd|]. split; [exact H|].
  exact (new_add_mine_then_nothing_to_mine (lib := sample_lib) miner MiningSender "alice"
           5000 t0 t1 MiningReward None None 2 sample_pending sample_mined Hadd H).
Defined.

(** ** Amounts *)

Lemma amount_transactions_uninvolved (blockchainAddress : string)
    (ts : list (ptr Transaction)) (totalAmount : float32) :
  Forall (fun t => t <> None) ts ->
  (forall t, In (Some t) ts -> ~ involves blockchainAddress t) ->
  amount_transactions blockchainAddress ts totalAmount = Returns totalAmount.
Proof.
  induction 1 as [|[t|] ts Ht _ IH]; intros Hun; cbn [amount_transactions].
  - reflexivity.
  - assert (Hn : ~ involves blockchainAddress t) by (apply Hun; left; reflexivity).
    unfold involves in Hn.
    destruct (String.eqb_spec blockchainAddress (recipientBlockchainAddress t)) as [E|_];
      [exfalso; apply Hn; right; exact E|].
    destruct (String.eqb_spec blockchainAddress (senderBlockchainAddress t)) as [E|_];
      [exfalso; apply Hn; left; exact E|].
    apply IH. intros t' Hin. apply Hun. right. exact Hin.
  - contradiction.
Qed.

Lemma amount_blocks_uninvolved (blockchainAddress : string) (c : list (ptr Block))
    (totalAmount : float32) :
  no_nil_pointer c ->
  ~ occurs_in blockchainAddress c ->
  amount_blocks blockchainAddress c totalAmount = Returns totalAmount.
Proof.
  induction 1 as [|p c (b & -> & Hb) _ IH]; intros Hun; cbn [amount_blocks].
  - reflexivity.
  - rewrite amount_transactions_uninvolved.
    + cbn [bind]. apply IH. intros (b' & t & Hin & Ht & Hinv).
      apply Hun. exists b', t. split; [right; exact Hin | auto].
    + exact Hb.
    + intros t Ht Hinv. apply Hun. exists b, t. split; [left; reflexivity | auto].
Qed.

(** X10: an address that is neither sender nor recipient of any transaction
    in the chain has the amount 0, provided the chain holds no nil
    pointer for [CalculateTotalAmount] to trip over. *)
Theorem CalculateTotalAmount_unknown_address (blockchainAddress : string)
    (bc : Blockchain) :
  no_nil_pointer (elems (chain bc)) ->
  ~ occurs_in blockchainAddress (elems (chain bc)) ->
  CalculateTotalAmount blockchainAddress bc = Returns (SpecFloat.S754_zero false).
Proof.
  intros Hwhole Hun. unfold CalculateTotalAmount.
  apply amount_blocks_uninvolved; assumption.
Qed.

Lemma sample_mined_no_nil_pointer : no_nil_pointer (elems (chain sample_mined)).
Proof.
  repeat constructor.
  - exists block0. split; [reflexivity | constructor].
  - exists block1. split; [reflexivity|]. repeat constructor; discriminate.
Defined.

Lemma sample_mined_without_carol : ~ occurs_in "carol" (elems (chain sample_mined)).
Proof.
  intros (b & t & Hb & Ht & Hinv).
  destruct Hb as [Hb|[Hb|[]]]; injection Hb as <-.
  - destruct Ht.
  - destruct Ht as [Ht|[Ht|[]]]; injection Ht as <-;
      destruct Hinv as [Hinv|Hinv]; discriminate Hinv.
Defined.

(** X10 at the sample node. *)
Lemma CalculateTotalAmount_unknown_address_witness :
  no_nil_pointer (elems (chain sample_mined))
  /\ ~ occurs_in "carol" (elems (chain sample_mined))
  /\ CalculateTotalAmount "carol" sample_mined = Returns (SpecFloat.S754_zero false).
Proof.
  split; [exact sample_mined_no_nil_pointer|].
  split; [exact sample_mined_without_carol|].
  exact (CalculateTotalAmount_unknown_address "carol" sample_mined
           sample_mined_no_nil_pointer sample_mined_without_carol).
Defined.

Section Overspending.

Context {lib : Library}.

(** X11: no balance is checked on admission, the check being commented
    out: [AddTransaction] does not read the chain.  On two ledgers
    that differ in their chains only, the call ends the same way: with
    the same panic, or with the same verdict and the same pool, each
    chain left as it was.  Whether a transfer is admitted therefore
    never depends on what the chain says the sender owns. *)
Theorem AddTransaction_never_reads_chain (sender recipient : string) (value : float32)
    (senderPublicKey : ptr ecdsa.PublicKey) (s : ptr utils.Signature)
    (pool : slice (ptr Transaction)) (c1 c2 : slice (ptr Block))
    (address : string) (port : Z) (ns : slice string) :
  match AddTransaction sender recipient value senderPublicKey s
          (mkBlockchain pool c1 address port ns),
        AddTransaction sender recipient value senderPublicKey s
          (mkBlockchain pool c2 address port ns) with
  | Returns (bc1, ok1), Returns (bc2, ok2) =>
      ok1 = ok2
      /\ transactionPool bc1 = transactionPool bc2
      /\ chain bc1 = c1
      /\ chain bc2 = c2
  | Panics msg1, Panics msg2 => msg1 = msg2
  | Running, Running => True
  | _, _ => False
  end.
Proof.
  unfold AddTransaction, VerityTransactionSignature.
  destruct (String.eqb sender MiningSender).
  - repeat split.
  - destruct s as [sg|]; [|reflexivity].
    destruct senderPublicKey as [pk|]; [|reflexivity].
    cbn [bind]. destruct (ecdsa_Verify _ _ _ _); repeat split.
Qed.

End Overspending.

(** ** Hexadecimal text and back *)

Lemma hex_cons (b : Z) (bs : list Z) :
  hex (b :: bs)
  = String (hex_digit (Z.shiftr b 4)) (String (hex_digit (Z.land b 15)) (hex bs)).
Proof. reflexivity. Qed.

Lemma fromHexChar_hex_digit (d : Z) : 0 <= d < 16 -> fromHexChar (hex_digit d) = Some d.
Proof.
  intros H.
  assert (Hd : d = 0 \/ d = 1 \/ d = 2 \/ d = 3 \/ d = 4 \/ d = 5 \/ d = 6 \/ d = 7
               \/ d = 8 \/ d = 9 \/ d = 10 \/ d = 11 \/ d = 12 \/ d = 13 \/ d = 14
               \/ d = 15) by lia.
  repeat (destruct Hd as [->|Hd]; [reflexivity|]). subst d. reflexivity.
Qed.

Lemma byte_nibbles (b : Z) :
  is_byte_value b ->
  0 <= Z.shiftr b 4 < 16 /\ 0 <= Z.land b 15 < 16
  /\ 16 * Z.shiftr b 4 + Z.land b 15 = b.
Proof.
  unfold is_byte_value. intros H.
  rewrite Z.shiftr_div_pow2 by lia.
  change 15 with (Z.ones 4). rewrite Z.land_ones by lia.
  change (2 ^ 4) with 16.
  pose proof (Z.div_mod b 16 ltac:(lia)) as Hdm.
  pose proof (Z.mod_pos_bound b 16 ltac:(lia)) as Hmod.
  assert (0 <= b / 16 < 16).
  { split; [apply Z.div_pos; lia | apply Z.div_lt_upper_bound; lia]. }
  lia.
Qed.

Lemma hex_Decode_hex (bs : list Z) :
  Forall is_byte_value bs -> hex_Decode (hex bs) = bs.
Proof.
  induction 1 as [|b bs Hb _ IH]; [reflexivity|].
  rewrite hex_cons. cbn [hex_Decode].
  destruct (byte_nibbles b Hb) as (Hhi & Hlo & Hsum).
  rewrite (fromHexChar_hex_digit _ Hhi), (fromHexChar_hex_digit _ Hlo), IH, Hsum.
  reflexivity.
Qed.

Lemma be_bytes_are_bytes (n : nat) (x : Z) : Forall is_byte_value (SHA256.be_bytes n x).
Proof.
  unfold SHA256.be_bytes. apply Forall_forall. intros b Hb.
  apply in_map_iff in Hb. destruct Hb as (i & <- & _).
  unfold is_byte_value. change 0xFF with (Z.ones 8).
  rewrite Z.land_ones by lia. apply Z.mod_pos_bound. reflexivity.
Qed.

Lemma Hash_bytes (b : ptr Block) : Forall is_byte_value (Hash b).
Proof.
  unfold Hash, SHA256.Sum256, SHA256.digest_of. cbn [flat_map].
  repeat (apply Forall_app; split); try apply be_bytes_are_bytes. constructor.
Qed.

(** ** Decoding a block sent under the keys that are read *)

Lemma Transactions_document_blank (ts : slice (ptr Transaction)) :
  Transactions_document (blank ts) = Transactions_document ts.
Proof.
  destruct ts as [l|]; [|reflexivity]. cbn [blank option_map Transactions_document].
  f_equal. rewrite map_map. apply map_ext. intros [t|]; reflexivity.
Qed.

Lemma Hash_blank (b : Block) :
  Hash (Some (mkBlock (timestamp b) (nonce b) (previousHash b) (blank (transactions b))))
  = Hash (Some b).
Proof.
  unfold Hash, json_Marshal_Block, MarshalJSON, Block_document.
  cbn [timestamp nonce previousHash transactions].
  rewrite Transactions_document_blank. reflexivity.
Qed.

Section ReadingBlocks.

Context {lib : Library}.

Lemma decode_Transactions_document_blank (l : list (ptr Transaction)) :
  decode_transactions (map Transaction_document l)
  = Some (map (option_map (fun _ : Transaction => zero_Transaction)) l).
Proof.
  induction l as [|[t|] l IH]; cbn [map decode_transactions Transaction_document option_map].
  - reflexivity.
  - cbn. rewrite IH. reflexivity.
  - rewrite IH. reflexivity.
Qed.

(** X12: a block whose integers fit [int64] and whose [previousHash] is 32
    bytes, sent under the keys [UnmarshalJSON] reads, is decoded
    without error or panic into a block with the same timestamp, nonce
    and [previousHash] and the same [Hash]; of its transactions only
    their number and which of them are nil is left, every field of a
    transaction being lost on the way. *)
Theorem Block_UnmarshalJSON_as_read (b : Block) :
  in_int64 (timestamp b) = true ->
  in_int64 (nonce b) = true ->
  List.length (previousHash b) = 32%nat ->
  Forall is_byte_value (previousHash b) ->
  let b' := mkBlock (timestamp b) (nonce b) (previousHash b) (blank (transactions b)) in
  Block_UnmarshalJSON (Block_document_as_read b) = Returns (inl b')
  /\ Hash (Some b') = Hash (Some b).
Proof.
  intros Ht Hn Hlen Hbytes b'. split; [|apply Hash_blank].
  set (z := repeat 0 32).
  assert (H1 : Block_member Block_target_init ("timestamp", JNum (itoa (timestamp b)))
               = mkBlockTarget (mkBlock (timestamp b) 0 z None)
                               true true (Some EmptyString) true false).
  { unfold Block_member. change (names "timestamp" "timestamp") with true. cbv iota.
    rewrite (ParseInt_itoa _ Ht). reflexivity. }
  assert (H2 : Block_member (mkBlockTarget (mkBlock (timestamp b) 0 z None)
                               true true (Some EmptyString) true false)
                 ("nonce", JNum (itoa (nonce b)))
               = mkBlockTarget (mkBlock (timestamp b) (nonce b) z None)
                               true true (Some EmptyString) true false).
  { unfold Block_member. change (names "nonce" "timestamp") with false.
    change (names "nonce" "nonce") with true. cbv iota.
    rewrite (ParseInt_itoa _ Hn). reflexivity. }
  assert (H3 : Block_member (mkBlockTarget (mkBlock (timestamp b) (nonce b) z None)
                               true true (Some EmptyString) true false)
                 ("previous_hash", JStr (hex (previousHash b)))
               = mkBlockTarget (mkBlock (timestamp b) (nonce b) z None)
                               true true (Some (hex (previousHash b))) true false).
  { unfold Block_member. change (names "previous_hash" "timestamp") with false.
    change (names "previous_hash" "nonce") with false.
    change (names "previous_hash" "previous_hash") with true. reflexivity. }
  assert (H4 : exists flag,
             Block_member (mkBlockTarget (mkBlock (timestamp b) (nonce b) z None)
                               true true (Some (hex (previousHash b))) true false)
                 ("transactions", Transactions_document (transactions b))
             = mkBlockTarget (mkBlock (timestamp b) (nonce b) z (blank (transactions b)))
                             true true (Some (hex (previousHash b))) flag false).
  { unfold Block_member. change (names "transactions" "timestamp") with false.
    change (names "transactions" "nonce") with false.
    change (names "transactions" "previous_hash") with false.
    change (names "transactions" "transactions") with true. cbv iota.
    destruct (transactions b) as [l|]; cbn [Transactions_document blank option_map].
    - exists true. rewrite decode_Transactions_document_blank. reflexivity.
    - exists false. reflexivity. }
  destruct H4 as (flag & H4).
  assert (Hph : reslice (hex_DecodeString (hex (previousHash b))) 32
                = Returns (previousHash b)).
  { rewrite reslice_decoded by (rewrite (hex_Decode_hex _ Hbytes); lia).
    rewrite (hex_Decode_hex _ Hbytes), <- Hlen, firstn_all. reflexivity. }
  unfold Block_UnmarshalJSON, Block_document_as_read. cbn [fold_left].
  rewrite H1, H2, H3, H4. cbn [bl_err bl_PreviousHash]. rewrite Hph. reflexivity.
Qed.

End ReadingBlocks.

(** X12 at the sample node. *)
Lemma Block_UnmarshalJSON_as_read_witness :
  (in_int64 (timestamp block1) = true
   /\ in_int64 (nonce block1) = true
   /\ List.length (previousHash block1) = 32%nat
   /\ Forall is_byte_value (previousHash block1))
  /\ Block_UnmarshalJSON (lib := sample_lib) (Block_document_as_read block1)
     = Returns (inl (mkBlock (timestamp block1) (nonce block1) (previousHash block1)
                             (blank (transactions block1))))
  /\ Hash (Some (mkBlock (timestamp block1) (nonce block1) (previousHash block1)
                         (blank (transactions block1))))
     = Hash (Some block1).
Proof.
  assert (Hb : Forall is_byte_value (previousHash block1)).
  { cbn [previousHash block1]. unfold hash0.
    repeat (constructor; [unfold is_byte_value; lia|]). constructor. }
  split; [repeat split; try reflexivity; exact Hb|].
  exact (Block_UnmarshalJSON_as_read (lib := sample_lib) block1
           eq_refl eq_refl eq_refl Hb).
Defined.

(** ** A chain sent from node to node *)

Section ReadingChains.

Context {lib : Library}.

(** X13: what [Blockchain.MarshalJSON] writes for a ledger,
    [Blockchain.UnmarshalJSON] reads without error as a ledger whose
    chain is nil, whatever the chain was: the blocks are written under
    the key [chains] and looked for under [chain]. *)
Theorem Blockchain_UnmarshalJSON_of_MarshalJSON (bc : Blockchain) :
  Blockchain_UnmarshalJSON (Blockchain_document bc) = Returns (inl None)
  /\ Blockchain_MarshalJSON bc
     = ("{" ++ dq ++ "chains" ++ dq ++ ":" ++ json_encode (Chain_document (chain bc)) ++ "}")%string.
Proof.
  split; reflexivity.
Qed.

Lemma ResolveConflicts_scan_nil (net : network) (ns : list string) :
  forall state,
    (forall n, In n ns -> net (chain_endpoint n) = Replied 200 (Returns None)) ->
    ResolveConflicts_scan net ns state = Returns state.
Proof.
  induction ns as [|n ns IH]; intros [m l] H; cbn [ResolveConflicts_scan].
  - reflexivity.
  - rewrite (H n (or_introl eq_refl)). cbn [ResolveConflicts_visit Z.eqb Pos.eqb bind len].
    replace (m <? 0)%nat with false by (symmetry; apply Nat.ltb_ge; lia).
    cbn [bind]. apply IH. intros n' Hn'. apply H. right. exact Hn'.
Qed.

(** X14: among neighbors that run this program [ResolveConflicts] never
    adopts a chain: every answer is decoded to a nil chain, so the
    ledger is left as it is and [false] is returned, however long the
    neighbors' chains are. *)
Theorem ResolveConflicts_among_peers (net : network) (bc : Blockchain) :
  (forall n, In n (elems (neighbors bc)) -> answers_as_peer net n) ->
  ResolveConflicts net bc = Returns (bc, false).
Proof.
  intros H. unfold ResolveConflicts. cbv zeta.
  rewrite ResolveConflicts_scan_nil; [reflexivity|].
  intros n Hn. destruct (H n Hn) as (peer & c & Hc & Hnet).
  rewrite Hnet. cbv in Hc. injection Hc as <-. reflexivity.
Qed.

End ReadingChains.

(** X14 at the sample node. *)
Lemma ResolveConflicts_among_peers_witness :
  (forall n, In n (elems (neighbors sample_local)) ->
             answers_as_peer (lib := sample_lib) sample_peer_net n)
  /\ ResolveConflicts sample_peer_net sample_local = Returns (sample_local, false).
Proof.
  assert (H : forall n, In n (elems (neighbors sample_local)) ->
                        answers_as_peer (lib := sample_lib) sample_peer_net n).
  { intros n _. exists sample_mined, None. split; reflexivity. }
  split; [exact H|].
  exact (ResolveConflicts_among_peers (lib := sample_lib) sample_peer_net sample_local H).
Defined.

(** ** Transaction requests *)

Lemma names_apart (k a b : string) :
  names k a = true -> names k b = true -> names a b = true.
Proof.
  unfold names. intros Ha Hb. apply String.eqb_eq in Ha, Hb.
  apply String.eqb_eq. congruence.
Qed.

Lemma is_nil_allocated (A : Type) (zero : A) (old : ptr A) :
  is_nil (allocated zero old) = false.
Proof.
  destruct old; reflexivity.
Qed.

Section Requests.

Context {lib : Library}.

Ltac apart :=
  match goal with
  | Ha : names ?k ?a = true, Hb : names ?k ?b = true |- _ =>
      let X := fresh in
      pose proof (names_apart k a b Ha Hb) as X; vm_compute in X; discriminate X
  end.

Ltac member_step k v :=
  unfold TransactionRequest_member;
  destruct (names k "sender_blockchain_address") eqn:?;
  destruct (names k "recipient_blockchain_address") eqn:?;
  destruct (names k "sender_public_key") eqn:?;
  destruct (names k "value") eqn:?;
  destruct (names k "signature") eqn:?;
  try solve [apart];
  try reflexivity;
  destruct v; cbn [store_string store_float32 fst];
  try (destruct (ParseFloat32 _));
  cbn [fst SenderBlockchainAddress RecipientBlockchainAddress SenderPublicKey
       Value Signature is_nil];
  rewrite ?is_nil_allocated; reflexivity.

Lemma member_SenderBlockchainAddress (r : TransactionRequest) (err : bool)
    (k : string) (v : json) :
  is_nil (SenderBlockchainAddress (fst (TransactionRequest_member (r, err) (k, v))))
  = if names k "sender_blockchain_address"
    then match v with JNull => true | _ => false end
    else is_nil (SenderBlockchainAddress r).
Proof. member_step k v. Qed.

Lemma member_RecipientBlockchainAddress (r : TransactionRequest) (err : bool)
    (k : string) (v : json) :
  is_nil (RecipientBlockchainAddress (fst (TransactionRequest_member (r, err) (k, v))))
  = if names k "recipient_blockchain_address"
    then match v with JNull => true | _ => false end
    else is_nil (RecipientBlockchainAddress r).
Proof. member_step k v. Qed.

Lemma member_SenderPublicKey (r : TransactionRequest) (err : bool)
    (k : string) (v : json) :
  is_nil (SenderPublicKey (fst (TransactionRequest_member (r, err) (k, v))))
  = if names k "sender_public_key"
    then match v with JNull => true | _ => false end
    else is_nil (SenderPublicKey r).
Proof. member_step k v. Qed.

Lemma member_Value (r : TransactionRequest) (err : bool) (k : string) (v : json) :
  is_nil (Value (fst (TransactionRequest_member (r, err) (k, v))))
  = if names k "value"
    then match v with JNull => true | _ => false end
    else is_nil (Value r).
Proof. member_step k v. Qed.

Lemma member_Signature (r : TransactionRequest) (err : bool) (k : string) (v : json) :
  is_nil (Signature (fst (TransactionRequest_member (r, err) (k, v))))
  = if names k "signature"
    then match v with JNull => true | _ => false end
    else is_nil (Signature r).
Proof. member_step k v. Qed.

(** A field of the request after all members: nil when the last member
    that selects it is null, set when that member is anything else, and
    as before when there is none. *)
Lemma members_field (A : Type) (f : TransactionRequest -> ptr A) (field : string) :
  (forall r err k v,
      is_nil (f (fst (TransactionRequest_member (r, err) (k, v))))
      = if names k field
        then match v with JNull => true | _ => false end
        else is_nil (f r)) ->
  forall members r err,
    is_nil (f (fst (fold_left TransactionRequest_member members (r, err))))
    = match last_named field members with
      | None => is_nil (f r)
      | Some JNull => true
      | Some _ => false
      end.
Proof.
  intros Hstep. induction members as [|[k v] members IH]; intros r err.
  - reflexivity.
  - cbn [fold_left last_named]. pose proof (Hstep r err k v) as H.
    destruct (TransactionRequest_member (r, err) (k, v)) as [r1 e1]. cbn [fst] in H.
    rewrite IH. destruct (last_named field members) as [v'|]; [reflexivity|].
    rewrite H. destruct (names k field); reflexivity.
Qed.

Lemma decoded_field (A : Type) (f : TransactionRequest -> ptr A) (field : string) :
  (forall r err k v,
      is_nil (f (fst (TransactionRequest_member (r, err) (k, v))))
      = if names k field
        then match v with JNull => true | _ => false end
        else is_nil (f r)) ->
  f zero_TransactionRequest = None ->
  forall members,
    is_nil (f (fst (fold_left TransactionRequest_member members
                      (zero_TransactionRequest, false))))
    = negb (supplied members field).
Proof.
  intros Hstep Hzero members. rewrite (members_field A f field Hstep), Hzero.
  unfold supplied. destruct (last_named field members) as [[]|]; reflexivity.
Qed.

(** X15: what [Validate] answers for a request decoded from a JSON object:
    [true] exactly when, for each of the five keys, the object has a
    member and the last such member is not null.  The kind of the value
    does not matter: a member the decoder refuses, a number for
    [signature] say, still leaves its field set. *)
Theorem Validate_decoded_object (members : list (string * json)) :
  Validate (fst (decode_TransactionRequest (Some (JObj members))))
  = Returns (forallb (supplied members) TransactionRequest_keys).
Proof.
  pose proof (decoded_field _ _ _ member_SenderBlockchainAddress eq_refl members) as H1.
  pose proof (decoded_field _ _ _ member_RecipientBlockchainAddress eq_refl members) as H2.
  pose proof (decoded_field _ _ _ member_SenderPublicKey eq_refl members) as H3.
  pose proof (decoded_field _ _ _ member_Value eq_refl members) as H4.
  pose proof (decoded_field _ _ _ member_Signature eq_refl members) as H5.
  unfold decode_TransactionRequest.
  destruct (fold_left TransactionRequest_member members (zero_TransactionRequest, false))
    as [r err].
  cbn [fst] in *. unfold Validate. rewrite H1, H2, H3, H4, H5.
  unfold TransactionRequest_keys. cbn [forallb].
  destruct (supplied members "sender_blockchain_address"),
           (supplied members "recipient_blockchain_address"),
           (supplied members "sender_public_key"),
           (supplied members "value"),
           (supplied members "signature"); reflexivity.
Qed.

(** X16: [Validate], called by the request handlers on whatever
    [decode.Decode] left in [t], panics exactly when the body held no
    JSON value or the value [null]: [t] is then still nil. *)
Theorem Validate_panics_iff_no_request (body : option json) :
  (exists msg, Validate (fst (decode_TransactionRequest body)) = Panics msg)
  <-> (body = None \/ body = Some JNull).
Proof.
  split.
  - intros [msg H]. destruct body as [doc|]; [|left; reflexivity].
    destruct doc; try (right; reflexivity); exfalso.
    + cbn in H. discriminate.
    + cbn in H. discriminate.
    + cbn in H. discriminate.
    + cbn in H. discriminate.
    + unfold decode_TransactionRequest in H.
      destruct (fold_left TransactionRequest_member members
                  (zero_TransactionRequest, false)) as [r err].
      cbn [fst] in H. unfold Validate in H.
      destruct (is_nil (Value r) || is_nil (Signature r)
                || is_nil (SenderBlockchainAddress r)
                || is_nil (RecipientBlockchainAddress r)
                || is_nil (SenderPublicKey r)); discriminate.
  - intros [->| ->]; eexists; reflexivity.
Qed.

End Requests.
